(** * task_manager.py: the process table, the severity colours and the kill control

    A shallow embedding of [src/task_manager.py].

    - Python [int] is [Z]; the percentages psutil reports are finite floats
      and are modelled by the rationals [Q] (comparisons on finite floats
      agree with comparisons on the rationals they denote; NaN and the
      textual [:.1f] rendering of the table cells are outside the model).
    - Python [str] is a list of code points, [unicode]; the literals of the
      program are ASCII apart from one arrow and are written with [lit].
      [str.lower] depends on the Unicode case tables, which are not part of
      the program: it is a variable of the development.
    - The dictionaries built in [refresh_processes] have a fixed key set and
      are records.
    - Widgets are mutated in place: the application state is threaded
      through a state-and-exception monad, and the calls that matter to the
      outside (messages shown, refreshes run, signals sent) are recorded in
      a trace. *)

From Stdlib Require Import ZArith NArith QArith List String Ascii Bool Lia.
From Stdlib Require Import Permutation Sorted DecimalString DecimalPos Lqa Qabs.
Import ListNotations.

Local Open Scope Z_scope.

(** ** Python built-ins used by the program *)

Module Py.

(** A [str]: its code points in order. *)
Definition unicode : Type := list N.

(** An ASCII literal of the program as a [str]. *)
Fixpoint lit (s : string) : unicode :=
  match s with
  | EmptyString => []
  | String c s' => N_of_ascii c :: lit s'
  end.

(** What [s.lower()] is on ASCII text: the capitals move down by 32.  On
    other text [str.lower] follows the Unicode tables; the program is
    modelled for any lowering function, and this one serves where the text
    at hand is ASCII. *)
Definition lower_ascii (s : unicode) : unicode :=
  map (fun c => if ((65 <=? c) && (c <=? 90))%N then (c + 32)%N else c) s.

(** [s.startswith(sub)] *)
Fixpoint prefix (sub s : unicode) : bool :=
  match sub, s with
  | [], _ => true
  | _ :: _, [] => false
  | a :: sub', b :: s' => N.eqb a b && prefix sub' s'
  end.

(** [sub in s]: [sub] occurs in [s] as a contiguous run of characters. *)
Fixpoint contains (sub s : unicode) : bool :=
  prefix sub s
  || match s with
     | [] => false
     | _ :: s' => contains sub s'
     end.

(** [a == b] on [str]. *)
Fixpoint eqb (a b : unicode) : bool :=
  match a, b with
  | [], [] => true
  | x :: a', y :: b' => N.eqb x y && eqb a' b'
  | _, _ => false
  end.

(** [str(n)] for an [int]: decimal digits, a leading minus sign when
    negative. *)
Definition str (n : Z) : unicode := lit (NilZero.string_of_int (Z.to_int n)).

(** [s[:n]]: the first [n] characters. *)
Definition take (n : nat) (s : unicode) : unicode := firstn n s.

(** Truth value of a [str]: only the empty string is false. *)
Definition truthy (s : unicode) : bool :=
  match s with
  | [] => false
  | _ :: _ => true
  end.

(** [x or d] where [x] is [None] or a [str]. *)
Definition or_str (x : option unicode) (d : unicode) : unicode :=
  match x with
  | Some s => if truthy s then s else d
  | None => d
  end.

(** [x or d] where [x] is [None] or a number: zero is false. *)
Definition or_num (x : option Q) (d : Q) : Q :=
  match x with
  | Some q => if Qeq_bool q 0 then d else q
  | None => d
  end.

(** [a < b] and [a > b] on numbers. *)
Definition lt (a b : Q) : bool := negb (Qle_bool b a).
Definition gt (a b : Q) : bool := lt b a.

(** [l.sort(key=key, reverse=True)].  Python's sort is stable, also with
    [reverse=True]: elements whose keys compare equal keep their order.
    A stable sort has one possible result (see [sort_reverse_unique]);
    it is computed here by insertion from the right, each element going
    in front of the first element whose key is not greater than its
    own. *)
Section Sort.
Context {A : Type} (key : A -> Q).

Fixpoint insert_reverse (x : A) (l : list A) : list A :=
  match l with
  | [] => [x]
  | h :: t => if lt (key x) (key h) then h :: insert_reverse x t
              else x :: h :: t
  end.

Fixpoint sort_reverse (l : list A) : list A :=
  match l with
  | [] => []
  | x :: t => insert_reverse x (sort_reverse t)
  end.
End Sort.

(** The exceptions the program distinguishes.  All of them derive from
    [Exception]; the psutil ones are not [OSError]s. *)
Inductive exn :=
| NoSuchProcess
| AccessDenied
| ZombieProcess
| ProcessLookupError
| PermissionError
| OtherException (detail : unicode).

(** [str(e)] as used in [f"Error: {e}"]; the text of the built-in and
    psutil exceptions is produced by the raising library and is carried
    here by a fixed tag. *)
Definition exn_text (e : exn) : unicode :=
  match e with
  | NoSuchProcess => lit "NoSuchProcess"
  | AccessDenied => lit "AccessDenied"
  | ZombieProcess => lit "ZombieProcess"
  | ProcessLookupError => lit "ProcessLookupError"
  | PermissionError => lit "PermissionError"
  | OtherException d => d
  end.

End Py.

(** ** Data *)

Import Py.

(** The result of a Python computation: a value, or a raised exception. *)
Inductive outcome (A : Type) : Type :=
| Ok (a : A)
| Raise (e : exn).
Arguments Ok {A} a.
Arguments Raise {A} e.

(** [proc.info] as filled by [psutil.process_iter] for the attributes
    [pid], [name], [cpu_percent], [memory_percent], [status]; an attribute
    psutil could not read is [None]. *)
Record proc_info := {
  info_pid : Z;
  info_name : option unicode;
  info_cpu_percent : option Q;
  info_memory_percent : option Q;
  info_status : option unicode
}.

(** What [for proc in psutil.process_iter(...)] delivers: for each process
    in turn, reading its info in the loop body gives the info or raises;
    after the last process the iterator stops, or the enumeration itself
    raises ([iter_error]). *)
Record enumeration := {
  yielded : list (outcome proc_info);
  iter_error : option exn
}.

(** The operating system as seen by one handler: what the next
    [psutil.process_iter] delivers and how [os.kill(pid, SIGKILL)] ends. *)
Record os := {
  process_iter : enumeration;
  os_kill : Z -> outcome unit
}.

(** The dictionaries appended to [processes]. *)
Record process := {
  pid : Z;
  name : unicode;
  cpu : Q;
  memory : Q;
  status : unicode
}.

(** A styled numeric cell [f"[{style}]{value:.1f}[/]"]: the style and the
    number shown. *)
Record cell := {
  cell_style : unicode;
  cell_value : Q
}.

(** One [add_row] call of the table: the five cells and the row key. *)
Record row := {
  row_pid : unicode;
  row_name : unicode;
  row_cpu : cell;
  row_mem : cell;
  row_status : unicode;
  row_key : unicode
}.

(** Calls visible from outside the handlers. *)
Inductive event :=
| EvSignal (pid : Z)                         (* os.kill(pid, SIGKILL) *)
| EvMessage (text : unicode) (error : bool)  (* show_message(text, error) *)
| EvRefresh (search_query : unicode).        (* refresh_processes(search_query) *)

(** The widgets the handlers read and write: the value of [#search-input],
    the rows of [#process-table] in insertion order (row keys are decimal
    pids, distinct for the live processes of one enumeration), and the
    markup of the [#message] label. *)
Record app := {
  search_input : unicode;
  table : list row;
  message : unicode;
  trace : list event
}.

(** ** State and exceptions *)

Definition M (A : Type) : Type := app -> outcome A * app.

Definition ret {A} (a : A) : M A := fun s => (Ok a, s).

Definition bind {A B} (m : M A) (k : A -> M B) : M B :=
  fun s => match m s with
           | (Ok a, s') => k a s'
           | (Raise e, s') => (Raise e, s')
           end.

Definition lift {A} (o : outcome A) : M A := fun s => (o, s).

(** [try: body except ...: handler(e)] where the handler takes every
    exception; what the body did to the widgets before raising stays. *)
Definition try_except {A} (body : M A) (handler : exn -> M A) : M A :=
  fun s => match body s with
           | (Ok a, s') => (Ok a, s')
           | (Raise e, s') => handler e s'
           end.

Definition emit (ev : event) : M unit :=
  fun s => (Ok tt, {| search_input := search_input s; table := table s;
                      message := message s; trace := trace s ++ [ev] |}).

Declare Scope py_scope.
Delimit Scope py_scope with py.
Notation "x <- m ;; k" := (bind m (fun x => k))
  (at level 61, m at next level, right associativity) : py_scope.
Notation "m ;; k" := (bind m (fun _ => k))
  (at level 61, right associativity) : py_scope.
Local Open Scope py_scope.

(** [for x in l: body(x)] *)
Fixpoint for_each {A} (l : list A) (body : A -> M unit) : M unit :=
  match l with
  | [] => ret tt
  | x :: l' => body x ;; for_each l' body
  end.

(** ** CPUWidget and MemoryWidget: the severity colours *)

(** [update_cpu], the colour of the aggregate bar. *)
Definition cpu_color (cpu_percent : Q) : unicode :=
  if lt cpu_percent 50 then lit "green"
  else if lt cpu_percent 80 then lit "yellow" else lit "red".

(** [update_cpu], the colour of one entry of [cores_str]. *)
Definition core_color (c : Q) : unicode :=
  if lt c 50 then lit "green" else if lt c 80 then lit "yellow" else lit "red".

(** [update_cpu], [cores_str] covers [per_core[:8]]. *)
Definition cores_shown (per_core : list Q) : list (unicode * Q) :=
  map (fun c => (core_color c, c)) (firstn 8 per_core).

(** [update_memory], the colour of the memory bar. *)
Definition memory_color (percent : Q) : unicode :=
  if lt percent 60 then lit "green"
  else if lt percent 85 then lit "yellow" else lit "red".

(** ** The Classifier of the specification

    The program has no classifier function: the three conditional
    expressions above are written out with their constants.  The
    specification's [classify] is stated here to compare them with it. *)

Inductive band := Normal | Warning | Critical.

Definition spec_classify (value : Q) (breakpoints : Q * Q) : band :=
  let (low, high) := breakpoints in
  if lt value low then Normal
  else if lt value high then Warning else Critical.

Definition band_color (b : band) : unicode :=
  match b with
  | Normal => lit "green"
  | Warning => lit "yellow"
  | Critical => lit "red"
  end.

(** ** Number parsing and formatting

    [int(s)] for a [str] and the [:.1f] format, used by
    [action_kill_selected] and [format_bytes].  [int] is modelled on the
    ASCII digits and ASCII whitespace, the only ones [str] produces; as for
    [str], the limit CPython can put on the number of digits is not
    modelled. *)

Module Builtins.

(** Whitespace as [int] strips it, on ASCII: tab to carriage return, the
    separators 28 to 31, and the space. *)
Definition is_space (c : N) : bool :=
  (((9 <=? c) && (c <=? 13)) || ((28 <=? c) && (c <=? 31)) || (c =? 32))%N.

Fixpoint lstrip (s : unicode) : unicode :=
  match s with
  | [] => []
  | c :: s' => if is_space c then lstrip s' else s
  end.

Fixpoint all_space (s : unicode) : bool :=
  match s with
  | [] => true
  | c :: s' => is_space c && all_space s'
  end.

Definition digit_value (c : N) : option Z :=
  if ((48 <=? c) && (c <=? 57))%N then Some (Z.of_N c - 48) else None.

(** The rest of a decimal literal once a digit has been read, [acc] being
    the value so far: more digits, single underscores between digits, then
    whitespace only. *)
Fixpoint int_tail (s : unicode) (acc : Z) : option Z :=
  match s with
  | [] => Some acc
  | c :: s' =>
      match digit_value c with
      | Some d => int_tail s' (10 * acc + d)
      | None =>
          if (c =? 95)%N then
            match s' with
            | [] => None
            | c' :: s'' =>
                match digit_value c' with
                | Some d => int_tail s'' (10 * acc + d)
                | None => None
                end
            end
          else if all_space s then Some acc else None
      end
  end.

Definition int_unsigned (s : unicode) : option Z :=
  match s with
  | [] => None
  | c :: s' =>
      match digit_value c with
      | Some d => int_tail s' d
      | None => None
      end
  end.

(** [int(s)]; [None] stands for [ValueError].  45 is the minus sign, 43
    the plus sign, 95 the underscore. *)
Definition int (s : unicode) : option Z :=
  match lstrip s with
  | [] => None
  | c :: s' =>
      if (c =? 45)%N then option_map Z.opp (int_unsigned s')
      else if (c =? 43)%N then int_unsigned s'
      else int_unsigned (c :: s')
  end.

(** The integer nearest to [x], a tie going to the even one. *)
Definition round_half_even (x : Q) : Z :=
  let n := Qnum x in
  let d := Zpos (Qden x) in
  let f := n / d in
  let twice_rest := 2 * (n mod d) in
  if twice_rest <? d then f
  else if d <? twice_rest then f + 1
  else if Z.even f then f else f + 1.

(** [f"{x:.1f}"]: the sign of [x], then its magnitude rounded to tenths. *)
Definition format_1f (x : Q) : unicode :=
  let tenths := round_half_even (Qabs x * 10) in
  (if lt x 0 then lit "-" else [])
  ++ str (tenths / 10) ++ lit "." ++ str (tenths mod 10).

End Builtins.

(** ** MemoryWidget.format_bytes

    [bytes_val] starts as an [int] and becomes a float at the first
    division; dividing by 1024 is exact on floats for counts below 2^53,
    and the rationals follow it there. *)

Fixpoint format_bytes_from (units : list unicode) (bytes_val : Q) : unicode :=
  match units with
  | [] => Builtins.format_1f bytes_val ++ lit " PB"
  | unit :: rest =>
      if lt bytes_val 1024
      then Builtins.format_1f bytes_val ++ lit " " ++ unit
      else format_bytes_from rest (bytes_val / 1024)
  end.

Definition format_bytes (bytes_val : Z) : unicode :=
  format_bytes_from (map lit ["B"; "KB"; "MB"; "GB"; "TB"]%string)
                    (inject_Z bytes_val).

(** ** The program

    [lower] is [str.lower]: what the program does is stated for every
    lowering function, so for the one Python has. *)

Section Program.

Variable lower : unicode -> unicode.

(** ** ProcessTable *)

(** [self.clear()] *)
Definition clear : M unit :=
  fun s => (Ok tt, {| search_input := search_input s; table := [];
                      message := message s; trace := trace s |}).

(** [self.add_row(...)] *)
Definition add_row (r : row) : M unit :=
  fun s => (Ok tt, {| search_input := search_input s; table := table s ++ [r];
                      message := message s; trace := trace s |}).

(** The [except (psutil.NoSuchProcess, psutil.AccessDenied,
    psutil.ZombieProcess)] clause. *)
Definition skipped (e : exn) : bool :=
  match e with
  | NoSuchProcess | AccessDenied | ZombieProcess => true
  | _ => false
  end.

(** The dictionary built from [info]. *)
Definition record_of (info : proc_info) : process :=
  {| pid := info_pid info;
     name := or_str (info_name info) (lit "Unknown");
     cpu := or_num (info_cpu_percent info) 0;
     memory := or_num (info_memory_percent info) 0;
     status := or_str (info_status info) (lit "unknown") |}.

(** The body of the [for proc in ...] loop, run over what the iterator
    yields, [processes] being the list built so far. *)
Fixpoint scan_loop (items : list (outcome proc_info)) (processes : list process)
  : outcome (list process) :=
  match items with
  | [] => Ok processes
  | Ok info :: rest =>
      if info_pid info >? 0 then scan_loop rest (processes ++ [record_of info])
      else scan_loop rest processes
  | Raise e :: rest =>
      if skipped e then scan_loop rest processes else Raise e
  end.

(** The whole loop: the iterator may raise once it has yielded its
    processes, and nothing catches that. *)
Definition scan (ps : enumeration) : outcome (list process) :=
  match scan_loop (yielded ps) [] with
  | Ok processes =>
      match iter_error ps with
      | Some e => Raise e
      | None => Ok processes
      end
  | Raise e => Raise e
  end.

(** The condition of the list comprehension. *)
Definition matches (search_query : unicode) (p : process) : bool :=
  contains (lower search_query) (lower (name p))
  || contains search_query (str (pid p)).

(** [if search_query: processes = [p for p in processes if ...]] *)
Definition select (search_query : unicode) (processes : list process)
  : list process :=
  if truthy search_query then filter (matches search_query) processes
  else processes.

Definition cpu_style (proc : process) : unicode :=
  if gt (cpu proc) 50 then lit "red"
  else if gt (cpu proc) 20 then lit "yellow" else lit "green".

Definition mem_style (proc : process) : unicode :=
  if gt (memory proc) 10 then lit "red"
  else if gt (memory proc) 5 then lit "yellow" else lit "green".

(** The arguments of [add_row] for one process. *)
Definition render (proc : process) : row :=
  {| row_pid := str (pid proc);
     row_name := take 30 (name proc);
     row_cpu := {| cell_style := cpu_style proc; cell_value := cpu proc |};
     row_mem := {| cell_style := mem_style proc; cell_value := memory proc |};
     row_status := status proc;
     row_key := str (pid proc) |}.

(** [processes[:30]] as it stands when the rows are added. *)
Definition shown (search_query : unicode) (processes : list process)
  : list process :=
  firstn 30 (select search_query (sort_reverse cpu processes)).

Definition refresh_processes (w : os) (search_query : unicode) : M unit :=
  emit (EvRefresh search_query) ;;
  clear ;;
  processes <- lift (scan (process_iter w)) ;;
  for_each (shown search_query processes) (fun proc => add_row (render proc)).

(** [set_interval(2.0, self.refresh_processes)]: the timer calls the bound
    method without arguments, so [search_query] takes its default. *)
Definition timer_tick (w : os) : M unit :=
  refresh_processes w [].

(** [on_mount]: the first fill of the table, before the timer starts. *)
Definition on_mount (w : os) : M unit :=
  refresh_processes w [].

(** ** TaskManagerApp *)

(** The arrow of the message markup, U+2192. *)
Definition arrow : unicode := [8594%N].

Definition show_message (text : unicode) (error : bool) : M unit :=
  emit (EvMessage text error) ;;
  fun s => (Ok tt,
            {| search_input := search_input s; table := table s;
               message := lit "[" ++ (if error then lit "red" else lit "green")
                          ++ lit "]" ++ arrow ++ lit " " ++ text ++ lit "[/]";
               trace := trace s |}).

Definition get_search_input : M unicode := fun s => (Ok (search_input s), s).

Definition set_search_input (v : unicode) : M unit :=
  fun s => (Ok tt, {| search_input := v; table := table s;
                      message := message s; trace := trace s |}).

Definition action_search (w : os) : M unit :=
  v <- get_search_input ;;
  refresh_processes w v ;;
  show_message (if truthy v then lit "Filtered by: " ++ v else lit "Showing all") false.

Definition action_clear_search (w : os) : M unit :=
  set_search_input [] ;;
  refresh_processes w [] ;;
  show_message (lit "Search cleared") false.

Definition action_refresh (w : os) : M unit :=
  v <- get_search_input ;;
  refresh_processes w v ;;
  show_message (lit "Refreshed") false.

Definition kill_process (w : os) (pid : Z) : M unit :=
  try_except
    (emit (EvSignal pid) ;;
     lift (os_kill w pid) ;;
     show_message (lit "Killed process " ++ str pid) false ;;
     action_refresh w)
    (fun e =>
       match e with
       | ProcessLookupError =>
           show_message (lit "Process " ++ str pid ++ lit " not found") true
       | PermissionError =>
           show_message (lit "Permission denied for PID " ++ str pid) true
       | _ => show_message (lit "Error: " ++ exn_text e) true
       end).

(** ** TaskManagerApp.action_kill_selected *)

(** What the handler reads from the table widget besides its rows: the
    row under the cursor, if any, and how [get_row_at] answers an index
    that has no row: with [ValueError] or [IndexError] ([None]), or with
    another exception. *)
Record cursor := {
  cursor_row : option nat;
  no_such_row : option exn
}.

(** [row_key[0]] is the first cell of the row, the pid column. *)
Definition action_kill_selected (w : os) (c : cursor) : M unit :=
  match cursor_row c with
  | Some i =>
      fun s =>
        match nth_error (table s) i with
        | Some row_key =>
            match Builtins.int (row_pid row_key) with
            | Some pid => kill_process w pid s
            | None => show_message (lit "No process selected") true s
            end
        | None =>
            match no_such_row c with
            | None => show_message (lit "No process selected") true s
            | Some e => (Raise e, s)
            end
        end
  | None => show_message (lit "Click on a process first") true
  end.

(** [on_button_pressed]: the button ids and their handlers. *)
Definition on_button_pressed (w : os) (c : cursor) (button_id : unicode) : M unit :=
  if eqb button_id (lit "search-btn") then action_search w
  else if eqb button_id (lit "clear-btn") then action_clear_search w
  else if eqb button_id (lit "kill-btn") then action_kill_selected w c
  else if eqb button_id (lit "refresh-btn") then action_refresh w
  else ret tt.

(** [on_input_submitted] *)
Definition on_input_submitted (w : os) : M unit := action_search w.

(** ** Vocabulary of the statements *)

(** The state a handler leaves behind, and its result. *)
Definition state_after {A} (m : M A) (s : app) : app := snd (m s).
Definition result_of {A} (m : M A) (s : app) : outcome A := fst (m s).

(** The widgets once [refresh_processes(q)] has put [rows] in the table. *)
Definition refreshed (s : app) (q : unicode) (rows : list row) : app :=
  {| search_input := search_input s; table := rows;
     message := message s; trace := trace s ++ [EvRefresh q] |}.

(** The processes of an enumeration that are read without an exception and
    have a positive pid, as records, in enumeration order. *)
Definition kept (items : list (outcome proc_info)) : list process :=
  flat_map (fun it => match it with
                      | Ok info => if info_pid info >? 0 then [record_of info] else []
                      | Raise _ => []
                      end) items.

(** A read that fails with one of the three exceptions the loop catches. *)
Definition transient (it : outcome proc_info) : bool :=
  match it with
  | Ok _ => false
  | Raise e => skipped e
  end.

(** Every read of the enumeration succeeds or fails transiently. *)
Definition reads_tolerated (items : list (outcome proc_info)) : Prop :=
  forall e, In (Raise e) items -> skipped e = true.

(** [sub] occurs in [s]. *)
Definition occurs (sub s : unicode) : Prop :=
  exists pre post, s = pre ++ sub ++ post.

(** [sub] occurs in [s] without regard to case: once both are lowered. *)
Definition occurs_caseless (sub s : unicode) : Prop :=
  occurs (lower sub) (lower s).

(** A list in descending order of its keys. *)
Definition descending {A} (key : A -> Q) (l : list A) : Prop :=
  StronglySorted (fun a b => (key b <= key a)%Q) l.

(** The elements of [l] whose key is [c], in the order of [l]. *)
Definition with_key {A} (key : A -> Q) (c : Q) (l : list A) : list A :=
  filter (fun a => Qeq_bool (key a) c) l.

(** [l'] is [l] reordered without exchanging two elements of equal key. *)
Definition stable_for {A} (key : A -> Q) (l l' : list A) : Prop :=
  forall c, with_key key c l' = with_key key c l.

(** [l1] is an initial segment of [l2]. *)
Definition initial_segment {A} (l1 l2 : list A) : Prop :=
  exists rest, l2 = l1 ++ rest.

(** The percentages an info carries, when present, are not negative. *)
Definition percentages_nonneg (info : proc_info) : Prop :=
  (forall c, info_cpu_percent info = Some c -> (0 <= c)%Q) /\
  (forall m, info_memory_percent info = Some m -> (0 <= m)%Q).

(** The widgets after [kill_process(p)] when [os.kill] raised and the
    handler showed [text]. *)
Definition kill_reported (s : app) (p : Z) (text : unicode) : app :=
  {| search_input := search_input s; table := table s;
     message := lit "[red]" ++ arrow ++ lit " " ++ text ++ lit "[/]";
     trace := trace s ++ [EvSignal p; EvMessage text true] |}.

(** The text [kill_process(p)] shows for an exception caught by its
    [except] clauses. *)
Definition caught_text (p : Z) (e : exn) : unicode :=
  match e with
  | ProcessLookupError => lit "Process " ++ str p ++ lit " not found"
  | PermissionError => lit "Permission denied for PID " ++ str p
  | _ => lit "Error: " ++ exn_text e
  end.

(** The same enumeration without the reads that fail transiently. *)
Definition without_transient (w : os) : os :=
  {| process_iter :=
       {| yielded := filter (fun it => negb (transient it)) (yielded (process_iter w));
          iter_error := iter_error (process_iter w) |};
     os_kill := os_kill w |}.

(** The text is ASCII. *)
Definition ascii_text (s : unicode) : Prop := Forall (fun c => (c < 128)%N) s.

(** ** Sample data *)

Definition info_of (p : Z) (n : string) (c m : Q) (st : string) : proc_info :=
  {| info_pid := p; info_name := Some (lit n); info_cpu_percent := Some c;
     info_memory_percent := Some m; info_status := Some (lit st) |}.

Definition chrome_info : proc_info := info_of 10 "Google Chrome" (65 # 2) 7 "running".
Definition bash_info : proc_info := info_of 20 "bash" 1 (1 # 2) "sleeping".
Definition kernel_info : proc_info := info_of 0 "kernel_task" 3 12 "running".

(** A process psutil could read nothing of but the pid. *)
Definition bare_info : proc_info :=
  {| info_pid := 30; info_name := None; info_cpu_percent := None;
     info_memory_percent := None; info_status := None |}.

(** A process reported with a negative CPU percentage. *)
Definition skewed_info : proc_info := info_of 40 "clockd" (-1) 0 "running".

(** A process whose name matches [helper] only beyond its 30th character. *)
Definition long_info : proc_info :=
  info_of 50 "com.example.application.service.helper" 60 2 "running".

(** A process whose name is 31 times the letter e with an acute accent,
    U+00E9. *)
Definition accented_info : proc_info :=
  {| info_pid := 60; info_name := Some (repeat 233%N 31);
     info_cpu_percent := Some 2%Q; info_memory_percent := Some 1%Q;
     info_status := Some (lit "running") |}.

Definition only_pid_10 (p : Z) : outcome unit :=
  if p =? 10 then Ok tt
  else if p =? 1 then Raise PermissionError
  else if p =? 2 then Raise (OtherException (lit "Invalid argument"))
  else Raise ProcessLookupError.

Definition os_of (items : list (outcome proc_info)) (err : option exn) : os :=
  {| process_iter := {| yielded := items; iter_error := err |};
     os_kill := only_pid_10 |}.

Definition sample_os : os :=
  os_of [Ok bash_info; Raise NoSuchProcess; Ok chrome_info; Ok kernel_info;
         Raise AccessDenied; Ok bare_info; Ok long_info] None.

Definition failing_os : os :=
  os_of [Ok bash_info] (Some (OtherException (lit "enumeration failed"))).

Definition skewed_os : os := os_of [Ok bash_info; Ok skewed_info] None.

Definition accented_os : os := os_of [Ok accented_info] None.

(** Forty processes with pids 1..40 and CPU percentages cycling through
    0..6. *)
Definition crowd : list (outcome proc_info) :=
  map (fun n => Ok (info_of (Z.of_nat n) "worker"
                            (inject_Z (Z.of_nat (n mod 7))) 1 "running"))
      (seq 1 40).

Definition crowd_os : os := os_of crowd None.

Definition empty_app : app :=
  {| search_input := []; table := []; message := []; trace := [] |}.

(** The application with [chrome] typed in the search box and one row in
    the table. *)
Definition busy_app : app :=
  {| search_input := lit "chrome"; table := [render (record_of chrome_info)];
     message := []; trace := [] |}.

(** * Properties *)

Example str_pos : str 1234 = lit "1234". Proof. reflexivity. Qed.
Example str_zero : str 0 = lit "0". Proof. reflexivity. Qed.
Example str_neg : str (-5) = lit "-5". Proof. reflexivity. Qed.
Example lower_ascii_ex : lower_ascii (lit "Google Chrome") = lit "google chrome".
Proof. reflexivity. Qed.
Example contains_ex : contains (lit "rom") (lit "chrome") = true. Proof. reflexivity. Qed.
Example contains_empty : contains [] [] = true. Proof. reflexivity. Qed.
Example contains_no : contains (lit "x") (lit "chrome") = false. Proof. reflexivity. Qed.
Example take_ex : take 3 (lit "chrome") = lit "chr". Proof. reflexivity. Qed.
Example take_code_points : take 2 [233; 8594; 233; 66]%N = [233; 8594]%N.
Proof. reflexivity. Qed.
Example msg_ex :
  message (snd (show_message (lit "Refreshed") false
                  {| search_input := []; table := []; message := []; trace := [] |}))
  = lit "[green]" ++ arrow ++ lit " Refreshed[/]".
Proof. reflexivity. Qed.

(** ** Numbers *)

Lemma lt_iff (a b : Q) : lt a b = true <-> (a < b)%Q.
Proof.
  unfold lt. rewrite negb_true_iff. split; intro H.
  - apply Qnot_le_lt. intro Hle. apply Qle_bool_iff in Hle. congruence.
  - destruct (Qle_bool b a) eqn:E; [|reflexivity].
    apply Qle_bool_iff in E. exfalso. exact (Qlt_not_le _ _ H E).
Qed.

Lemma lt_false_iff (a b : Q) : lt a b = false <-> (b <= a)%Q.
Proof.
  unfold lt. rewrite negb_false_iff. apply Qle_bool_iff.
Qed.

Lemma gt_iff (a b : Q) : gt a b = true <-> (b < a)%Q.
Proof. unfold gt. apply lt_iff. Qed.

Lemma gt_false_iff (a b : Q) : gt a b = false <-> (a <= b)%Q.
Proof. unfold gt. apply lt_false_iff. Qed.

Lemma or_num_nonneg (x : option Q) :
  (forall q, x = Some q -> (0 <= q)%Q) -> (0 <= or_num x 0)%Q.
Proof.
  intros H. destruct x as [q|]; simpl; [|apply Qle_refl].
  destruct (Qeq_bool q 0); [apply Qle_refl | apply H; reflexivity].
Qed.

Lemma or_str_truthy (x : option unicode) (d : unicode) :
  truthy d = true -> truthy (or_str x d) = true.
Proof.
  intros Hd. destruct x as [s|]; simpl; [|exact Hd].
  destruct (truthy s) eqn:E; [exact E | exact Hd].
Qed.

Lemma truthy_nonempty (s : unicode) : truthy s = true <-> s <> [].
Proof.
  destruct s; simpl; split; intro H; congruence.
Qed.

(** ** Strings *)

Lemma prefix_iff (sub s : unicode) :
  prefix sub s = true <-> exists post, s = sub ++ post.
Proof.
  revert s. induction sub as [|c sub IH]; intros s.
  - split; [intros _; exists s; reflexivity | intros _; destruct s; reflexivity].
  - destruct s as [|d s]; simpl.
    + split; [discriminate | intros [post H]; discriminate].
    + rewrite andb_true_iff, IH, N.eqb_eq. split.
      * intros [-> [post ->]]. exists post. reflexivity.
      * intros [post H]. injection H as -> ->. split; [reflexivity | exists post; reflexivity].
Qed.

Lemma contains_nil (sub : unicode) : contains sub [] = prefix sub [].
Proof. unfold contains. apply orb_false_r. Qed.

Lemma contains_cons (sub : unicode) (c : N) (s : unicode) :
  contains sub (c :: s) = prefix sub (c :: s) || contains sub s.
Proof. reflexivity. Qed.

Lemma contains_iff (sub s : unicode) : contains sub s = true <-> occurs sub s.
Proof.
  unfold occurs. split.
  - induction s as [|c s IH].
    + rewrite contains_nil. intros H. apply prefix_iff in H.
      destruct H as [post H]. exists [], post. exact H.
    + rewrite contains_cons, orb_true_iff. intros [H|H].
      * apply prefix_iff in H. destruct H as [post H].
        exists [], post. exact H.
      * destruct (IH H) as (pre & post & ->).
        exists (c :: pre), post. reflexivity.
  - intros (pre & post & ->). induction pre as [|c pre IH].
    + change ([] ++ sub ++ post) with (sub ++ post).
      assert (P : prefix sub (sub ++ post) = true)
        by (apply prefix_iff; exists post; reflexivity).
      destruct (sub ++ post).
      * rewrite contains_nil. exact P.
      * rewrite contains_cons, P. reflexivity.
    + change ((c :: pre) ++ sub ++ post) with (c :: (pre ++ sub ++ post)).
      rewrite contains_cons, IH. apply orb_true_r.
Qed.

Lemma matches_iff (q : unicode) (p : process) :
  matches q p = true <-> occurs_caseless q (name p) \/ occurs q (str (pid p)).
Proof.
  unfold matches, occurs_caseless. rewrite orb_true_iff, !contains_iff. reflexivity.
Qed.

Lemma take_length (n : nat) (s : unicode) :
  List.length (take n s) = Nat.min n (List.length s).
Proof. apply length_firstn. Qed.

Lemma take_prefix (n : nat) (s : unicode) :
  exists rest, s = take n s ++ rest.
Proof. exists (skipn n s). symmetry. apply firstn_skipn. Qed.

Lemma lit_app (a b : string) : lit (a ++ b) = lit a ++ lit b.
Proof. induction a as [|c a IH]; simpl; [reflexivity | rewrite IH; reflexivity]. Qed.

(** ** Lists *)

Lemma firstn_In {A} (n : nat) (l : list A) (x : A) :
  In x (firstn n l) -> In x l.
Proof.
  intros H. rewrite <- (firstn_skipn n l). apply in_or_app. left. exact H.
Qed.

(** ** The stable descending sort *)

Section SortFacts.
Context {A : Type} (key : A -> Q).

Lemma insert_reverse_perm (x : A) (l : list A) :
  Permutation (x :: l) (insert_reverse key x l).
Proof.
  induction l as [|h t IH]; simpl; [apply Permutation_refl|].
  destruct (lt (key x) (key h)); [|apply Permutation_refl].
  eapply perm_trans; [apply perm_swap | apply perm_skip, IH].
Qed.

Lemma sort_reverse_perm (l : list A) : Permutation l (sort_reverse key l).
Proof.
  induction l as [|x t IH]; simpl; [constructor|].
  eapply perm_trans; [apply perm_skip, IH | apply insert_reverse_perm].
Qed.

Lemma insert_reverse_descending (x : A) (l : list A) :
  descending key l -> descending key (insert_reverse key x l).
Proof.
  unfold descending. induction l as [|h t IH]; intros Hs; simpl.
  - constructor; constructor.
  - inversion Hs as [|? ? Ht Hh]; subst.
    destruct (lt (key x) (key h)) eqn:E.
    + constructor; [apply IH, Ht|].
      eapply Permutation_Forall; [apply insert_reverse_perm|].
      constructor; [|exact Hh].
      apply Qlt_le_weak, lt_iff, E.
    + apply lt_false_iff in E. constructor; [exact Hs|].
      constructor; [exact E|].
      eapply Forall_impl; [|exact Hh].
      intros a Ha. simpl in Ha. eapply Qle_trans; eassumption.
Qed.

Lemma sort_reverse_descending (l : list A) : descending key (sort_reverse key l).
Proof.
  induction l as [|x t IH]; simpl; [constructor|].
  apply insert_reverse_descending, IH.
Qed.

Lemma with_key_insert (c : Q) (x : A) (l : list A) :
  with_key key c (insert_reverse key x l) = with_key key c (x :: l).
Proof.
  unfold with_key. induction l as [|h t IH]; simpl; [reflexivity|].
  destruct (lt (key x) (key h)) eqn:E; [|reflexivity].
  simpl. rewrite IH. simpl.
  destruct (Qeq_bool (key x) c) eqn:Ex, (Qeq_bool (key h) c) eqn:Eh; try reflexivity.
  apply Qeq_bool_iff in Ex, Eh. apply lt_iff in E.
  rewrite Ex, Eh in E. exfalso. exact (Qlt_irrefl _ E).
Qed.

Lemma sort_reverse_stable (l : list A) : stable_for key l (sort_reverse key l).
Proof.
  intros c. induction l as [|x t IH]; simpl; [reflexivity|].
  rewrite with_key_insert. unfold with_key in *. simpl. rewrite IH. reflexivity.
Qed.

Lemma with_key_In (c : Q) (a : A) (l : list A) :
  In a (with_key key c l) <-> In a l /\ (key a == c)%Q.
Proof.
  unfold with_key. rewrite filter_In, Qeq_bool_iff. reflexivity.
Qed.

(** Two descending lists with the same elements of each key, in the same
    order, are the same list. *)
Lemma descending_stable_eq (l1 l2 : list A) :
  descending key l1 -> descending key l2 ->
  (forall c, with_key key c l1 = with_key key c l2) -> l1 = l2.
Proof.
  revert l2. induction l1 as [|a t1 IH]; intros l2 H1 H2 Hk.
  - destruct l2 as [|b t2]; [reflexivity|].
    specialize (Hk (key b)). unfold with_key in Hk. simpl in Hk.
    rewrite (proj2 (Qeq_bool_iff _ _) (Qeq_refl _)) in Hk. discriminate.
  - destruct l2 as [|b t2].
    + specialize (Hk (key a)). unfold with_key in Hk. simpl in Hk.
      rewrite (proj2 (Qeq_bool_iff _ _) (Qeq_refl _)) in Hk. discriminate.
    + inversion H1 as [|? ? Ht1 Ha]; subst. inversion H2 as [|? ? Ht2 Hb]; subst.
      assert (Hab : a = b).
      { destruct (Qeq_bool (key b) (key a)) eqn:E.
        - pose proof (Hk (key a)) as K. unfold with_key in K. simpl in K.
          rewrite E, (proj2 (Qeq_bool_iff _ _) (Qeq_refl _)) in K. congruence.
        - exfalso.
          assert (Ia : In a (with_key key (key a) (b :: t2))).
          { rewrite <- Hk. apply with_key_In. split; [left; reflexivity|apply Qeq_refl]. }
          assert (Ib : In b (with_key key (key b) (a :: t1))).
          { rewrite Hk. apply with_key_In. split; [left; reflexivity|apply Qeq_refl]. }
          apply with_key_In in Ia, Ib. destruct Ia as [Ia _], Ib as [Ib _].
          destruct Ia as [Ia|Ia]; [subst; rewrite (proj2 (Qeq_bool_iff _ _) (Qeq_refl _)) in E; discriminate|].
          destruct Ib as [Ib|Ib]; [subst; rewrite (proj2 (Qeq_bool_iff _ _) (Qeq_refl _)) in E; discriminate|].
          rewrite Forall_forall in Ha, Hb.
          pose proof (Ha _ Ib) as L1. pose proof (Hb _ Ia) as L2. simpl in L1, L2.
          assert (Q : (key b == key a)%Q) by (apply Qle_antisym; assumption).
          apply Qeq_bool_iff in Q. congruence. }
      subst b. f_equal. apply IH; [exact Ht1 | exact Ht2 |].
      intros c. specialize (Hk c). unfold with_key in *. simpl in Hk.
      destruct (Qeq_bool (key a) c); congruence.
Qed.

(** The result of a stable descending sort is determined: whatever
    algorithm [list.sort] runs, it returns [sort_reverse]. *)
Lemma sort_reverse_unique (l l' : list A) :
  descending key l' -> stable_for key l l' -> l' = sort_reverse key l.
Proof.
  intros Hd Hs. apply descending_stable_eq;
    [exact Hd | apply sort_reverse_descending |].
  intros c. rewrite Hs. symmetry. apply sort_reverse_stable.
Qed.

Lemma descending_filter (f : A -> bool) (l : list A) :
  descending key l -> descending key (filter f l).
Proof.
  unfold descending. induction 1 as [|a l Hl IH Ha]; simpl; [constructor|].
  destruct (f a); [|exact IH].
  constructor; [exact IH|].
  rewrite Forall_forall in *. intros x Hx. apply filter_In in Hx. apply Ha, Hx.
Qed.

Lemma descending_firstn (n : nat) (l : list A) :
  descending key l -> descending key (firstn n l).
Proof.
  unfold descending. intros H. revert n.
  induction H as [|a l Hl IH Ha]; intros [|n]; simpl; try constructor.
  - apply IH.
  - rewrite Forall_forall in *. intros x Hx. apply Ha.
    eapply firstn_In; eauto.
Qed.

Lemma descending_adjacent (l : list A) (i : nat) (a b : A) :
  descending key l ->
  nth_error l i = Some a -> nth_error l (S i) = Some b -> (key b <= key a)%Q.
Proof.
  unfold descending. intros H. revert i.
  induction H as [|h t Ht IH Hh]; intros i Ha Hb.
  - destruct i; discriminate.
  - destruct i as [|i].
    + injection Ha as ->. rewrite Forall_forall in Hh.
      apply Hh. apply (nth_error_In t 0 Hb).
    + exact (IH i Ha Hb).
Qed.

Lemma with_key_filter (c : Q) (f : A -> bool) (l : list A) :
  with_key key c (filter f l) = filter f (with_key key c l).
Proof.
  unfold with_key. induction l as [|a l IH]; simpl; [reflexivity|].
  destruct (f a) eqn:Ef, (Qeq_bool (key a) c) eqn:Ec; simpl;
    rewrite ?Ef, ?Ec, IH; reflexivity.
Qed.

Lemma with_key_firstn (c : Q) (n : nat) (l : list A) :
  initial_segment (with_key key c (firstn n l)) (with_key key c l).
Proof.
  unfold initial_segment, with_key. revert n.
  induction l as [|a l IH]; intros [|n]; simpl;
    try (eexists; reflexivity).
  destruct (IH n) as [rest H]. destruct (Qeq_bool (key a) c).
  - exists rest. simpl. rewrite <- H. reflexivity.
  - exists rest. exact H.
Qed.

End SortFacts.

(** ** The enumeration loop *)

Lemma scan_loop_ok (items : list (outcome proc_info)) (acc l : list process) :
  scan_loop items acc = Ok l -> l = acc ++ kept items.
Proof.
  revert acc. induction items as [|[info|e] rest IH]; intros acc H; simpl in *.
  - injection H as <-. symmetry. apply app_nil_r.
  - destruct (info_pid info >? 0).
    + rewrite (IH _ H), <- app_assoc. reflexivity.
    + apply IH, H.
  - destruct (skipped e); [apply IH, H | discriminate].
Qed.

Lemma scan_loop_tolerated (items : list (outcome proc_info)) (acc : list process) :
  reads_tolerated items -> scan_loop items acc = Ok (acc ++ kept items).
Proof.
  unfold reads_tolerated. revert acc.
  induction items as [|[info|e] rest IH]; intros acc H; simpl.
  - rewrite app_nil_r. reflexivity.
  - destruct (info_pid info >? 0).
    + rewrite IH, <- app_assoc; [reflexivity|]. intros e He. apply H. right. exact He.
    + apply IH. intros e He. apply H. right. exact He.
  - rewrite (H e (or_introl eq_refl)). apply IH.
    intros e' He. apply H. right. exact He.
Qed.

Lemma scan_loop_skip (before after : list (outcome proc_info)) (e : exn)
      (acc : list process) :
  skipped e = true ->
  scan_loop (before ++ Raise e :: after) acc = scan_loop (before ++ after) acc.
Proof.
  intros He. revert acc. induction before as [|[info|e'] rest IH]; intros acc; simpl.
  - rewrite He. reflexivity.
  - destruct (info_pid info >? 0); apply IH.
  - destruct (skipped e'); [apply IH | reflexivity].
Qed.

Lemma scan_loop_without_transient (items : list (outcome proc_info))
      (acc : list process) :
  scan_loop (filter (fun it => negb (transient it)) items) acc = scan_loop items acc.
Proof.
  revert acc. induction items as [|[info|e] rest IH]; intros acc; simpl.
  - reflexivity.
  - destruct (info_pid info >? 0); apply IH.
  - destruct (skipped e) eqn:E; simpl; [apply IH | rewrite E; reflexivity].
Qed.

Lemma kept_In (items : list (outcome proc_info)) (p : process) :
  In p (kept items) ->
  exists info, In (Ok info) items /\ info_pid info > 0 /\ p = record_of info.
Proof.
  unfold kept. rewrite in_flat_map. intros ([info|e] & Hin & Hp); [|destruct Hp].
  destruct (info_pid info >? 0) eqn:E; [|destruct Hp].
  destruct Hp as [<-|[]]. exists info. repeat split; [exact Hin|].
  apply Z.gtb_lt in E. lia.
Qed.

Lemma scan_ok (ps : enumeration) (l : list process) :
  scan ps = Ok l -> l = kept (yielded ps) /\ iter_error ps = None.
Proof.
  unfold scan. destruct (scan_loop (yielded ps) []) eqn:E; [|discriminate].
  destruct (iter_error ps); [discriminate|].
  intros H. injection H as <-. split; [|reflexivity].
  apply scan_loop_ok in E. exact E.
Qed.

Lemma scan_tolerated (ps : enumeration) :
  reads_tolerated (yielded ps) -> iter_error ps = None ->
  scan ps = Ok (kept (yielded ps)).
Proof.
  intros Hr He. unfold scan. rewrite scan_loop_tolerated by exact Hr.
  rewrite He. reflexivity.
Qed.

(** ** Running the handlers *)

Lemma for_each_add_row (l : list process) (s : app) :
  for_each l (fun proc => add_row (render proc)) s
  = (Ok tt, {| search_input := search_input s;
               table := table s ++ map render l;
               message := message s; trace := trace s |}).
Proof.
  revert s. induction l as [|p l IH]; intros s; simpl.
  - unfold ret. rewrite app_nil_r. destruct s; reflexivity.
  - unfold bind, add_row. rewrite IH. simpl. rewrite <- app_assoc. reflexivity.
Qed.

Lemma refresh_processes_run (w : os) (q : unicode) (s : app) :
  refresh_processes w q s
  = match scan (process_iter w) with
    | Ok l => (Ok tt, refreshed s q (map render (shown q l)))
    | Raise e => (Raise e, refreshed s q [])
    end.
Proof.
  unfold refresh_processes, bind, emit, clear, lift. simpl.
  destruct (scan (process_iter w)) as [l|e]; [|reflexivity].
  rewrite for_each_add_row. reflexivity.
Qed.

Lemma shown_length (q : unicode) (l : list process) : (List.length (shown q l) <= 30)%nat.
Proof. unfold shown. apply firstn_le_length. Qed.

Lemma shown_In (q : unicode) (l : list process) (p : process) :
  In p (shown q l) -> In p l.
Proof.
  unfold shown, select. intros H. apply firstn_In in H.
  destruct (truthy q); [apply filter_In in H; destruct H as [H _]|];
    (eapply Permutation_in; [apply Permutation_sym, sort_reverse_perm | exact H]).
Qed.

Lemma shown_descending (q : unicode) (l : list process) : descending cpu (shown q l).
Proof.
  unfold shown, select. apply descending_firstn.
  destruct (truthy q); [apply descending_filter|]; apply sort_reverse_descending.
Qed.
(** ** The process snapshot *)

(** C1: whatever the enumeration and the query, the table holds at most 30
    rows after [refresh_processes], and when the enumeration succeeds they
    are the first 30 records of the sorted list once it has been filtered. *)
Theorem refresh_at_most_30 (w : os) (q : unicode) (s : app) :
  (List.length (table (state_after (refresh_processes w q) s)) <= 30)%nat /\
  (forall l, scan (process_iter w) = Ok l ->
     table (state_after (refresh_processes w q) s)
     = map render (firstn 30 (select q (sort_reverse cpu l)))).
Proof.
  unfold state_after. rewrite refresh_processes_run. split.
  - destruct (scan (process_iter w)) as [l|e]; simpl.
    + rewrite length_map. apply shown_length.
    + apply Nat.le_0_l.
  - intros l ->. reflexivity.
Qed.

Lemma select_with_key (q : unicode) (c : Q) (l : list process) :
  with_key cpu c (select q l) = select q (with_key cpu c l).
Proof.
  unfold select. destruct (truthy q); [apply with_key_filter | reflexivity].
Qed.

Lemma shown_stable (q : unicode) (c : Q) (l : list process) :
  initial_segment (with_key cpu c (shown q l)) (with_key cpu c (select q l)).
Proof.
  unfold shown.
  replace (with_key cpu c (select q l))
    with (with_key cpu c (select q (sort_reverse cpu l))).
  - apply with_key_firstn.
  - rewrite !select_with_key. f_equal. apply sort_reverse_stable.
Qed.

(** C2: after a successful [refresh_processes] the records shown are in
    descending order of [cpu] (each record's [cpu] is at least that of the
    next one), and the records of any one [cpu] value stand in the order the
    enumeration delivered them; any stable descending arrangement of the
    enumerated records gives the same rows. *)
Theorem refresh_descending_stable (w : os) (q : unicode) (s : app) (l : list process) :
  scan (process_iter w) = Ok l ->
  l = kept (yielded (process_iter w)) /\
  table (state_after (refresh_processes w q) s) = map render (shown q l) /\
  (forall i a b,
     nth_error (shown q l) i = Some a -> nth_error (shown q l) (S i) = Some b ->
     (cpu b <= cpu a)%Q) /\
  (forall c, initial_segment (with_key cpu c (shown q l))
                             (with_key cpu c (select q l))) /\
  (forall l', descending cpu l' -> stable_for cpu l l' ->
     shown q l = firstn 30 (select q l')).
Proof.
  intros H. split; [apply scan_ok, H|].
  split; [unfold state_after; rewrite refresh_processes_run, H; reflexivity|].
  split; [|split].
  - intros i a b. apply descending_adjacent, shown_descending.
  - intros c. apply shown_stable.
  - intros l' Hd Hs. unfold shown.
    rewrite (sort_reverse_unique cpu l l' Hd Hs). reflexivity.
Qed.

Lemma select_In (q : unicode) (l : list process) (p : process) :
  In p (select q l) <->
  In p l /\ (q = [] \/ occurs_caseless q (name p) \/ occurs q (str (pid p))).
Proof.
  unfold select. destruct q as [|c q]; simpl.
  - split; [intros H; split; [exact H | left; reflexivity] | intros [H _]; exact H].
  - rewrite filter_In, matches_iff. split; intros [H1 H2]; split; try exact H1.
    + right. exact H2.
    + destruct H2 as [H2|H2]; [discriminate | exact H2].
Qed.

(** C3: after a successful [refresh_processes] with a non-empty query every
    record shown has a name that contains the query without regard to case
    (the lowered query occurs in the lowered name, whatever [str.lower]
    does), or a pid whose decimal form contains the query as it is; the
    records that pass are exactly those; with the empty query nothing is
    filtered; a query no record matches gives an empty table and no
    exception. *)
Theorem refresh_filters_by_query (w : os) (q : unicode) (s : app) (l : list process) :
  scan (process_iter w) = Ok l ->
  table (state_after (refresh_processes w q) s) = map render (shown q l) /\
  (q <> [] ->
   forall p, In p (shown q l) ->
     occurs_caseless q (name p) \/ occurs q (str (pid p))) /\
  (forall p, In p (select q (sort_reverse cpu l)) <->
     In p l /\ (q = [] \/ occurs_caseless q (name p) \/ occurs q (str (pid p)))) /\
  (q = [] -> shown q l = firstn 30 (sort_reverse cpu l)) /\
  ((forall p, In p l -> ~ (occurs_caseless q (name p) \/ occurs q (str (pid p)))) ->
   refresh_processes w q s = (Ok tt, refreshed s q [])).
Proof.
  intros H.
  split; [unfold state_after; rewrite refresh_processes_run, H; reflexivity|].
  split; [|split; [|split]].
  - intros Hq p Hp. unfold shown in Hp. apply firstn_In, select_In in Hp.
    destruct Hp as [_ [Hp|Hp]]; [contradiction | exact Hp].
  - intros p. rewrite select_In. split; intros [H1 H2]; split; try exact H2.
    + eapply Permutation_in; [apply Permutation_sym, sort_reverse_perm | exact H1].
    + eapply Permutation_in; [apply sort_reverse_perm | exact H1].
  - intros ->. reflexivity.
  - intros Hno. rewrite refresh_processes_run, H.
    replace (shown q l) with (@nil process); [reflexivity|].
    destruct (shown q l) as [|p rest] eqn:E; [reflexivity|]. exfalso.
    assert (Hp : In p (shown q l)) by (rewrite E; left; reflexivity).
    pose proof (shown_In _ _ _ Hp) as Hl.
    unfold shown in Hp. apply firstn_In, select_In in Hp.
    destruct Hp as [_ [->|Hp]]; [|exact (Hno p Hl Hp)].
    apply (Hno p Hl). right. exists [], (str (pid p)). reflexivity.
Qed.

(** ** Failures *)

Lemma refresh_processes_same_scan (w w' : os) (q : unicode) (s : app) :
  scan (process_iter w) = scan (process_iter w') ->
  refresh_processes w q s = refresh_processes w' q s.
Proof. intros H. rewrite !refresh_processes_run, H. reflexivity. Qed.

(** C4: reads that fail with [NoSuchProcess], [AccessDenied] or
    [ZombieProcess] are skipped: [refresh_processes] behaves as if they were
    not in the enumeration, and when no other exception occurs it ends
    normally with the records of all the other processes; with three
    processes of which one fails in this way, the table shows the other
    two. *)
Theorem refresh_skips_failed_reads (w : os) (q : unicode) (s : app) :
  (skipped NoSuchProcess = true /\ skipped AccessDenied = true /\
   skipped ZombieProcess = true) /\
  refresh_processes w q s = refresh_processes (without_transient w) q s /\
  (reads_tolerated (yielded (process_iter w)) ->
   iter_error (process_iter w) = None ->
   refresh_processes w q s
   = (Ok tt, refreshed s q (map render (shown q (kept (yielded (process_iter w))))))) /\
  (forall a b e items k,
     e = NoSuchProcess \/ e = AccessDenied \/ e = ZombieProcess ->
     info_pid a > 0 -> info_pid b > 0 ->
     items = [Raise e; Ok a; Ok b] \/ items = [Ok a; Raise e; Ok b]
     \/ items = [Ok a; Ok b; Raise e] ->
     refresh_processes {| process_iter := {| yielded := items; iter_error := None |};
                          os_kill := k |} [] s
     = (Ok tt, refreshed s []
                 (map render (sort_reverse cpu [record_of a; record_of b])))).
Proof.
  split; [repeat split|]. split; [|split].
  - apply refresh_processes_same_scan. unfold scan, without_transient. simpl.
    rewrite scan_loop_without_transient. reflexivity.
  - intros Hr He. rewrite refresh_processes_run, scan_tolerated by assumption.
    reflexivity.
  - intros a b e items k He Ha Hb Hi.
    assert (Hs : skipped e = true) by (destruct He as [-> | [-> | ->]]; reflexivity).
    apply Z.gt_lt, Z.gtb_lt in Ha, Hb.
    rewrite refresh_processes_run.
    assert (Hscan : scan {| yielded := items; iter_error := None |}
                    = Ok [record_of a; record_of b]).
    { unfold scan.
      destruct Hi as [-> | [-> | ->]]; cbn [yielded iter_error scan_loop List.app];
        rewrite ?Hs, ?Ha, ?Hb; cbn [scan_loop List.app]; rewrite ?Hs, ?Ha, ?Hb;
        reflexivity. }
    cbn [process_iter]. rewrite Hscan. unfold shown, select. cbn [truthy].
    do 3 f_equal. cbn [sort_reverse insert_reverse].
    destruct (lt (cpu (record_of a)) (cpu (record_of b))); reflexivity.
Qed.

(** C5 (amended): when the enumeration itself raises, [refresh_processes]
    raises as well (the enumeration's exception, when no read failed with an
    exception of another kind before) and leaves the table empty: the rows
    shown before were cleared first and are not put back; the search input
    and the message label are untouched. *)
Theorem failed_refresh_clears_table (w : os) (q : unicode) (s : app) (e : exn) :
  iter_error (process_iter w) = Some e ->
  exists e',
    refresh_processes w q s = (Raise e', refreshed s q []) /\
    table (state_after (refresh_processes w q) s) = [] /\
    (reads_tolerated (yielded (process_iter w)) -> e' = e).
Proof.
  intros He. rewrite refresh_processes_run. unfold state_after.
  rewrite refresh_processes_run. unfold scan. rewrite He.
  destruct (scan_loop (yielded (process_iter w)) []) as [l|e0] eqn:E.
  - exists e. repeat split.
  - exists e0. repeat split. intros Hr.
    rewrite scan_loop_tolerated in E by exact Hr. discriminate.
Qed.

(** ** The handlers of the application *)

Lemma show_message_run (text : unicode) (error : bool) (s : app) :
  show_message text error s
  = (Ok tt, {| search_input := search_input s; table := table s;
               message := (lit "[" ++ (if error then lit "red" else lit "green") ++ lit "]"
                           ++ (lit "" ++ arrow ++ lit " ") ++ text ++ lit "[/]");
               trace := trace s ++ [EvMessage text error] |}).
Proof. reflexivity. Qed.

Lemma action_refresh_run (w : os) (s : app) :
  action_refresh w s
  = match scan (process_iter w) with
    | Ok l =>
        (Ok tt, {| search_input := search_input s;
                   table := map render (shown (search_input s) l);
                   message := (lit "[green]" ++ arrow ++ lit " Refreshed[/]");
                   trace := trace s ++ [EvRefresh (search_input s);
                                        EvMessage (lit "Refreshed") false] |})
    | Raise e => (Raise e, refreshed s (search_input s) [])
    end.
Proof.
  unfold action_refresh, bind, get_search_input.
  rewrite refresh_processes_run.
  destruct (scan (process_iter w)) as [l|e]; [|reflexivity].
  rewrite show_message_run. unfold refreshed. simpl.
  rewrite <- app_assoc. reflexivity.
Qed.

Lemma kill_process_run (w : os) (p : Z) (s : app) :
  kill_process w p s
  = match os_kill w p with
    | Raise e => (Ok tt, kill_reported s p (caught_text p e))
    | Ok _ =>
        let q := search_input s in
        let killed := EvMessage (lit "Killed process " ++ str p) false in
        match scan (process_iter w) with
        | Ok l =>
            (Ok tt, {| search_input := q;
                       table := map render (shown q l);
                       message := (lit "[green]" ++ arrow ++ lit " Refreshed[/]");
                       trace := trace s ++ [EvSignal p; killed; EvRefresh q;
                                            EvMessage (lit "Refreshed") false] |})
        | Raise e =>
            (Ok tt, {| search_input := q;
                       table := [];
                       message := ((lit "[red]" ++ arrow ++ lit " ") ++ caught_text p e ++ lit "[/]");
                       trace := trace s ++ [EvSignal p; killed; EvRefresh q;
                                            EvMessage (caught_text p e) true] |})
        end
    end.
Proof.
  unfold kill_process, try_except, bind, emit, lift. cbn beta iota.
  destruct (os_kill w p) as [[]|e].
  - rewrite show_message_run, action_refresh_run. cbn [search_input table message trace].
    destruct (scan (process_iter w)) as [l|e]; cbn [search_input table message trace].
    + rewrite <- !app_assoc. reflexivity.
    + destruct e; rewrite show_message_run; unfold refreshed;
        cbn [search_input table message trace caught_text];
        rewrite <- !app_assoc; reflexivity.
  - destruct e; rewrite show_message_run; unfold kill_reported;
      cbn [search_input table message trace caught_text];
      rewrite <- !app_assoc; reflexivity.
Qed.

(** C6: [kill_process(p)] sends the signal and reports how [os.kill] ended:
    [ProcessLookupError] as not found, [PermissionError] as permission
    denied, any other exception as an error with its text, and no exception
    as killed; in that last case, and in no other, [refresh_processes] runs
    next, once, with the value of the search input.  The handler itself
    never raises. *)
Theorem kill_process_classifies (w : os) (p : Z) (s : app) :
  let s' := state_after (kill_process w p) s in
  result_of (kill_process w p) s = Ok tt /\
  (os_kill w p = Raise ProcessLookupError ->
   s' = kill_reported s p (lit "Process " ++ str p ++ lit " not found")) /\
  (os_kill w p = Raise PermissionError ->
   s' = kill_reported s p (lit "Permission denied for PID " ++ str p)) /\
  (forall e, os_kill w p = Raise e ->
     e <> ProcessLookupError -> e <> PermissionError ->
     s' = kill_reported s p (lit "Error: " ++ exn_text e)) /\
  (os_kill w p = Ok tt ->
   exists last,
     trace s' = trace s ++ [EvSignal p;
                            EvMessage (lit "Killed process " ++ str p) false;
                            EvRefresh (search_input s); last] /\
     (forall q, last <> EvRefresh q) /\
     table s' = table (state_after (refresh_processes w (search_input s)) s)) /\
  ((exists q, In (EvRefresh q) (skipn (List.length (trace s)) (trace s')))
   <-> os_kill w p = Ok tt).
Proof.
  unfold state_after, result_of. rewrite kill_process_run, refresh_processes_run.
  split; [|split; [|split; [|split; [|split]]]].
  - destruct (os_kill w p) as [[]|e]; [|reflexivity].
    cbv zeta. destruct (scan (process_iter w)); reflexivity.
  - intros ->. reflexivity.
  - intros ->. reflexivity.
  - intros e -> H1 H2. destruct e; try reflexivity; contradiction.
  - intros ->. cbv zeta. destruct (scan (process_iter w)) as [l|e]; simpl.
    + exists (EvMessage (lit "Refreshed") false). repeat split. intros q; discriminate.
    + exists (EvMessage (caught_text p e) true). repeat split. intros q; discriminate.
  - destruct (os_kill w p) as [[]|e].
    + split; [reflexivity|]. intros _. exists (search_input s).
      cbv zeta. destruct (scan (process_iter w)) as [l|e]; simpl;
        rewrite skipn_app, skipn_all, Nat.sub_diag; simpl; auto.
    + split; [|discriminate]. intros [q Hq]. exfalso. simpl in Hq.
      rewrite skipn_app, skipn_all, Nat.sub_diag in Hq. simpl in Hq.
      destruct Hq as [Hq|[Hq|[]]]; discriminate.
Qed.

(** ** Severity colours *)

Lemma spec_classify_bands (low high x : Q) :
  (low <= high)%Q ->
  (spec_classify x (low, high) = Normal <-> (x < low)%Q) /\
  (spec_classify x (low, high) = Warning <-> (low <= x /\ x < high)%Q) /\
  (spec_classify x (low, high) = Critical <-> (high <= x)%Q).
Proof.
  intros Hlh. unfold spec_classify.
  destruct (lt x low) eqn:E1; [apply lt_iff in E1 | apply lt_false_iff in E1];
    (destruct (lt x high) eqn:E2; [apply lt_iff in E2 | apply lt_false_iff in E2]);
    (split; [|split]); (split; [intros K; try discriminate K | intros K]);
    first [reflexivity | lra].
Qed.

Lemma band_color_inj (a b : band) : band_color a = band_color b -> a = b.
Proof. destruct a, b; simpl; intros H; try reflexivity; discriminate. Qed.

Lemma color_bands (low high x : Q) :
  (low <= high)%Q ->
  let c := band_color (spec_classify x (low, high)) in
  (c = (lit "green") <-> (x < low)%Q) /\
  (c = (lit "yellow") <-> (low <= x /\ x < high)%Q) /\
  (c = (lit "red") <-> (high <= x)%Q).
Proof.
  intros Hlh c. destruct (spec_classify_bands low high x Hlh) as (Hn & Hw & Hc).
  subst c. rewrite <- Hn, <- Hw, <- Hc.
  repeat split; intros H; try (rewrite H; reflexivity).
  - apply (band_color_inj _ Normal H).
  - apply (band_color_inj _ Warning H).
  - apply (band_color_inj _ Critical H).
Qed.

(** C8: the colour expressions of [update_cpu] and [update_memory] are the
    specification's [classify] at the breakpoints (50, 80) and (60, 85),
    with green, yellow and red for Normal, Warning and Critical.  They are
    defined on every number: below the low breakpoint they give green, from
    the low breakpoint up to but excluding the high one yellow, from the
    high breakpoint on red, also below 0 and above 100. *)
Theorem severity_colors_classify (x : Q) :
  (cpu_color x = band_color (spec_classify x (50%Q, 80%Q)) /\
   core_color x = band_color (spec_classify x (50%Q, 80%Q)) /\
   memory_color x = band_color (spec_classify x (60%Q, 85%Q))) /\
  ((cpu_color x = (lit "green") <-> (x < 50)%Q) /\
   (cpu_color x = (lit "yellow") <-> (50 <= x /\ x < 80)%Q) /\
   (cpu_color x = (lit "red") <-> (80 <= x)%Q)) /\
  ((core_color x = (lit "green") <-> (x < 50)%Q) /\
   (core_color x = (lit "yellow") <-> (50 <= x /\ x < 80)%Q) /\
   (core_color x = (lit "red") <-> (80 <= x)%Q)) /\
  ((memory_color x = (lit "green") <-> (x < 60)%Q) /\
   (memory_color x = (lit "yellow") <-> (60 <= x /\ x < 85)%Q) /\
   (memory_color x = (lit "red") <-> (85 <= x)%Q)) /\
  (spec_classify 40 (50%Q, 80%Q) = Normal /\ cpu_color 40 = lit "green") /\
  (spec_classify 65 (50%Q, 80%Q) = Warning /\ cpu_color 65 = lit "yellow") /\
  (spec_classify 95 (50%Q, 80%Q) = Critical /\ cpu_color 95 = lit "red") /\
  (cpu_color (-3) = lit "green" /\ cpu_color 250 = lit "red" /\
   memory_color (-3) = lit "green" /\ memory_color 250 = lit "red").
Proof.
  assert (Hc : cpu_color x = band_color (spec_classify x (50%Q, 80%Q))).
  { unfold cpu_color, spec_classify.
    destruct (lt x 50); [reflexivity|]. destruct (lt x 80); reflexivity. }
  assert (Hk : core_color x = band_color (spec_classify x (50%Q, 80%Q))).
  { unfold core_color, spec_classify.
    destruct (lt x 50); [reflexivity|]. destruct (lt x 80); reflexivity. }
  assert (Hm : memory_color x = band_color (spec_classify x (60%Q, 85%Q))).
  { unfold memory_color, spec_classify.
    destruct (lt x 60); [reflexivity|]. destruct (lt x 85); reflexivity. }
  split; [auto|].
  split; [rewrite Hc; apply color_bands; discriminate|].
  split; [rewrite Hk; apply color_bands; discriminate|].
  split; [rewrite Hm; apply color_bands; discriminate|].
  repeat split.
Qed.

(** ** The records and the rows *)

Lemma record_of_wellformed (info : proc_info) :
  name (record_of info) <> [] /\ status (record_of info) <> [].
Proof.
  split; apply truthy_nonempty; simpl; apply or_str_truthy; reflexivity.
Qed.

(** C9 (amended): every record shown after a successful [refresh_processes]
    has a positive pid, a non-empty name and a non-empty status (a missing
    or empty name becomes [Unknown], a missing or empty status [unknown]);
    its [cpu] and [memory] are the reported percentages, 0 when missing, and
    so are not negative when no process is reported with a negative
    percentage. *)
Theorem shown_records_wellformed (w : os) (q : unicode) (s : app) (l : list process) :
  scan (process_iter w) = Ok l ->
  table (state_after (refresh_processes w q) s) = map render (shown q l) /\
  forall p, In p (shown q l) ->
    pid p > 0 /\ name p <> [] /\ status p <> [] /\
    (exists info, In (Ok info) (yielded (process_iter w)) /\
       pid p = info_pid info /\
       name p = or_str (info_name info) (lit "Unknown") /\
       status p = or_str (info_status info) (lit "unknown") /\
       cpu p = or_num (info_cpu_percent info) 0 /\
       memory p = or_num (info_memory_percent info) 0) /\
    ((forall info, In (Ok info) (yielded (process_iter w)) -> percentages_nonneg info) ->
     (0 <= cpu p)%Q /\ (0 <= memory p)%Q).
Proof.
  intros H.
  split; [unfold state_after; rewrite refresh_processes_run, H; reflexivity|].
  intros p Hp. apply shown_In in Hp.
  destruct (scan_ok _ _ H) as [-> _].
  destruct (kept_In _ _ Hp) as (info & Hin & Hpid & ->).
  destruct (record_of_wellformed info) as [Hn Hs].
  split; [exact Hpid|]. split; [exact Hn|]. split; [exact Hs|]. split.
  - exists info. repeat split. exact Hin.
  - intros Hnn. destruct (Hnn info Hin) as [Hc Hm].
    split; simpl; apply or_num_nonneg; assumption.
Qed.

Lemma cpu_style_bands (p : process) :
  (cpu_style p = (lit "red") <-> (50 < cpu p)%Q) /\
  (cpu_style p = (lit "yellow") <-> (20 < cpu p /\ cpu p <= 50)%Q) /\
  (cpu_style p = (lit "green") <-> (cpu p <= 20)%Q).
Proof.
  unfold cpu_style.
  destruct (gt (cpu p) 50) eqn:E1; [apply gt_iff in E1 | apply gt_false_iff in E1];
    (destruct (gt (cpu p) 20) eqn:E2; [apply gt_iff in E2 | apply gt_false_iff in E2]);
    (split; [|split]); (split; [intros K; try discriminate K | intros K]);
    first [reflexivity | lra].
Qed.

Lemma mem_style_bands (p : process) :
  (mem_style p = (lit "red") <-> (10 < memory p)%Q) /\
  (mem_style p = (lit "yellow") <-> (5 < memory p /\ memory p <= 10)%Q) /\
  (mem_style p = (lit "green") <-> (memory p <= 5)%Q).
Proof.
  unfold mem_style.
  destruct (gt (memory p) 10) eqn:E1; [apply gt_iff in E1 | apply gt_false_iff in E1];
    (destruct (gt (memory p) 5) eqn:E2; [apply gt_iff in E2 | apply gt_false_iff in E2]);
    (split; [|split]); (split; [intros K; try discriminate K | intros K]);
    first [reflexivity | lra].
Qed.

Lemma shown_matches (q : unicode) (l : list process) (p : process) :
  q <> [] -> In p (shown q l) ->
  occurs_caseless q (name p) \/ occurs q (str (pid p)).
Proof.
  intros Hq Hp. unfold shown in Hp. apply firstn_In, select_In in Hp.
  destruct Hp as [_ [Hp|Hp]]; [contradiction | exact Hp].
Qed.

Lemma cpu_color_green (x : Q) : (x < 50)%Q -> cpu_color x = lit "green".
Proof. intros H. unfold cpu_color. rewrite (proj2 (lt_iff x 50) H). reflexivity. Qed.

Lemma memory_color_green (x : Q) : (x < 60)%Q -> memory_color x = lit "green".
Proof. intros H. unfold memory_color. rewrite (proj2 (lt_iff x 60) H). reflexivity. Qed.

(** C10: every row of the table after a successful [refresh_processes] comes
    from a record shown; its CPU cell is red when [cpu] exceeds 50, yellow
    when it exceeds 20 but not 50, green otherwise; its memory cell is red
    when [memory] exceeds 10, yellow when it exceeds 5 but not 10, green
    otherwise; its name cell is the first 30 characters (code points) of
    the name, while the query was matched against the whole name: the
    lowered query occurs in the whole lowered name, or the query occurs in
    the decimal pid.  These thresholds are not
    those of the CPU and memory bars: between 20 and 50 the CPU cell is
    yellow where the bar is green, between 5 and 10 the memory cell is
    yellow where the bar is green. *)
Theorem rows_styled_and_truncated (w : os) (q : unicode) (s : app) (l : list process) :
  scan (process_iter w) = Ok l ->
  (forall r, In r (table (state_after (refresh_processes w q) s)) ->
   exists p, In p (shown q l) /\ r = render p /\
     ((cell_style (row_cpu r) = (lit "red") <-> (50 < cpu p)%Q) /\
      (cell_style (row_cpu r) = (lit "yellow") <-> (20 < cpu p /\ cpu p <= 50)%Q) /\
      (cell_style (row_cpu r) = (lit "green") <-> (cpu p <= 20)%Q)) /\
     ((cell_style (row_mem r) = (lit "red") <-> (10 < memory p)%Q) /\
      (cell_style (row_mem r) = (lit "yellow") <-> (5 < memory p /\ memory p <= 10)%Q) /\
      (cell_style (row_mem r) = (lit "green") <-> (memory p <= 5)%Q)) /\
     (row_name r = take 30 (name p) /\
      List.length (row_name r) = Nat.min 30 (List.length (name p)) /\
      exists rest, name p = (row_name r ++ rest)) /\
     (q <> [] -> occurs_caseless q (name p) \/ occurs q (str (pid p)))) /\
  (forall p, (20 < cpu p /\ cpu p < 50)%Q ->
     cpu_style p = lit "yellow" /\ cpu_color (cpu p) = lit "green") /\
  (forall p, (5 < memory p /\ memory p <= 10)%Q ->
     mem_style p = lit "yellow" /\ memory_color (memory p) = lit "green").
Proof.
  intros H. split; [|split].
  - intros r Hr. unfold state_after in Hr.
    rewrite refresh_processes_run, H in Hr. simpl in Hr.
    apply in_map_iff in Hr. destruct Hr as (p & <- & Hp).
    exists p. split; [exact Hp|]. split; [reflexivity|].
    split; [apply cpu_style_bands|]. split; [apply mem_style_bands|]. split.
    + split; [reflexivity|]. split; [apply take_length | apply take_prefix].
    + intros Hq.
      exact (shown_matches q l p Hq Hp).
  - intros p [H1 H2]. split.
    + apply cpu_style_bands. split; lra.
    + apply cpu_color_green. exact H2.
  - intros p [H1 H2]. split.
    + apply mem_style_bands. split; lra.
    + apply memory_color_green. lra.
Qed.

(** * Further properties *)

Example int_examples :
  Builtins.int (lit "1234") = Some 1234 /\ Builtins.int (lit "  -56 ") = Some (-56) /\
  Builtins.int (lit "+7") = Some 7 /\ Builtins.int (lit "1_000") = Some 1000 /\
  Builtins.int (lit "007") = Some 7 /\
  Builtins.int (lit "1__0") = None /\ Builtins.int (lit "_1") = None /\
  Builtins.int (lit "1_") = None /\ Builtins.int (lit "- 5") = None /\
  Builtins.int (lit "12a") = None /\ Builtins.int (lit "1 2") = None /\
  Builtins.int [] = None /\ Builtins.int (lit "[red]1.0[/]") = None.
Proof. repeat split. Qed.

Example format_1f_examples :
  Builtins.format_1f (25 # 2) = lit "12.5" /\
  Builtins.format_1f (1 # 4) = lit "0.2" /\
  Builtins.format_1f (3 # 4) = lit "0.8" /\
  Builtins.format_1f (1 # 32) = lit "0.0" /\
  Builtins.format_1f (-1) = lit "-1.0" /\
  Builtins.format_1f (- (1 # 64)) = lit "-0.0" /\
  Builtins.format_1f 0 = lit "0.0" /\
  Builtins.format_1f (32767 # 32) = lit "1024.0".
Proof. repeat split. Qed.

Example format_bytes_examples :
  format_bytes 0 = lit "0.0 B" /\
  format_bytes 1023 = lit "1023.0 B" /\
  format_bytes 1024 = lit "1.0 KB" /\
  format_bytes 1536 = lit "1.5 KB" /\
  format_bytes 17179869184 = lit "16.0 GB" /\
  format_bytes 1048575 = lit "1024.0 KB" /\
  format_bytes (2 ^ 52) = lit "4.0 PB" /\
  format_bytes (-2048) = lit "-2048.0 B".
Proof. repeat split. Qed.

(** ** What the table shows and what it leaves out *)

Lemma filter_perm {A} (f : A -> bool) (l l' : list A) :
  Permutation l l' -> Permutation (filter f l) (filter f l').
Proof.
  induction 1 as [|x l l' _ IH|x y l|l l' l'' _ IH1 _ IH2]; simpl.
  - constructor.
  - destruct (f x); [apply perm_skip|]; exact IH.
  - destruct (f x), (f y); try apply Permutation_refl. apply perm_swap.
  - eapply perm_trans; eassumption.
Qed.

Lemma select_perm (q : unicode) (l l' : list process) :
  Permutation l l' -> Permutation (select q l) (select q l').
Proof.
  intros H. unfold select. destruct (truthy q); [apply filter_perm|]; exact H.
Qed.

Lemma descending_app {A} (key : A -> Q) (l1 l2 : list A) (a b : A) :
  descending key (l1 ++ l2) -> In a l1 -> In b l2 -> (key b <= key a)%Q.
Proof.
  unfold descending. induction l1 as [|h t IH]; intros Hs Ha Hb; [destruct Ha|].
  simpl in Hs. inversion Hs as [|? ? Ht Hh]; subst.
  destruct Ha as [->|Ha]; [|exact (IH Ht Ha Hb)].
  rewrite Forall_forall in Hh. apply Hh, in_or_app. right. exact Hb.
Qed.

Lemma select_sorted_descending (q : unicode) (l : list process) :
  descending cpu (select q (sort_reverse cpu l)).
Proof.
  unfold select. destruct (truthy q); [apply descending_filter|];
    apply sort_reverse_descending.
Qed.

(** X1: when at most 30 of the enumerated records pass the query, none is
    left out: the records shown are those records, reordered, and every
    enumerated record that passes the test of the filter (the lowered query
    occurs in its lowered name, or the query occurs in its decimal pid) has
    its row in the table. *)
Theorem refresh_shows_every_match (w : os) (q : unicode) (s : app) (l : list process) :
  scan (process_iter w) = Ok l ->
  (List.length (select q l) <= 30)%nat ->
  Permutation (select q l) (shown q l) /\
  (forall p, In p l ->
     q = [] \/ occurs_caseless q (name p) \/ occurs q (str (pid p)) ->
     In (render p) (table (state_after (refresh_processes w q) s))).
Proof.
  intros H Hlen.
  assert (Hp : Permutation (select q l) (select q (sort_reverse cpu l)))
    by apply select_perm, sort_reverse_perm.
  assert (Hs : shown q l = select q (sort_reverse cpu l)).
  { unfold shown. apply firstn_all2.
    rewrite <- (Permutation_length Hp). exact Hlen. }
  split; [rewrite Hs; exact Hp|].
  intros p Hin Hm. unfold state_after. rewrite refresh_processes_run, H. simpl.
  apply in_map. rewrite Hs. apply select_In. split; [|exact Hm].
  eapply Permutation_in; [apply sort_reverse_perm | exact Hin].
Qed.

(** X2: what the 30-row limit drops is never busier than what it keeps: a
    record that passes the query but is not shown has a [cpu] no greater
    than that of any record shown. *)
Theorem refresh_keeps_highest_cpu (w : os) (q : unicode) (l : list process)
        (p p' : process) :
  scan (process_iter w) = Ok l ->
  In p (shown q l) -> In p' (select q l) -> ~ In p' (shown q l) ->
  (cpu p' <= cpu p)%Q.
Proof.
  intros _ Hp Hp' Hn. unfold shown in *.
  set (L := select q (sort_reverse cpu l)) in *.
  assert (HL : In p' L).
  { eapply Permutation_in; [apply select_perm, sort_reverse_perm | exact Hp']. }
  rewrite <- (firstn_skipn 30 L) in HL. apply in_app_or in HL.
  destruct HL as [HL|HL]; [contradiction|].
  apply (descending_app cpu (firstn 30 L) (skipn 30 L)); try assumption.
  rewrite firstn_skipn. apply select_sorted_descending.
Qed.

(** ** Decimal text *)

Lemma int_tail_digit (c : N) (s : unicode) (acc k : Z) :
  Builtins.digit_value c = Some k ->
  Builtins.int_tail (c :: s) acc = Builtins.int_tail s (10 * acc + k).
Proof. intros H. simpl. rewrite H. reflexivity. Qed.

Lemma int_tail_uint (d : Decimal.uint) (acc : positive) :
  Builtins.int_tail (lit (NilEmpty.string_of_uint d)) (Zpos acc)
  = Some (Zpos (Pos.of_uint_acc d acc)).
Proof.
  revert acc.
  induction d as [|d IH|d IH|d IH|d IH|d IH|d IH|d IH|d IH|d IH|d IH];
    intros acc; cbn [NilEmpty.string_of_uint Pos.of_uint_acc lit];
    [reflexivity|..];
    (erewrite int_tail_digit by reflexivity); rewrite <- IH; f_equal;
    rewrite ?Pos2Z.inj_add, ?Pos2Z.inj_mul; simpl (Z.of_N _); lia.
Qed.

Lemma int_tail_uint_0 (d : Decimal.uint) :
  Builtins.int_tail (lit (NilEmpty.string_of_uint d)) 0
  = Some (Z.of_N (Pos.of_uint d)).
Proof.
  induction d as [|d IH|d IH|d IH|d IH|d IH|d IH|d IH|d IH|d IH|d IH];
    cbn [NilEmpty.string_of_uint Pos.of_uint lit];
    [reflexivity|..];
    (erewrite int_tail_digit by reflexivity);
    first [exact IH | apply int_tail_uint].
Qed.

Lemma int_unsigned_uint (d : Decimal.uint) :
  d <> Decimal.Nil ->
  Builtins.int_unsigned (lit (NilEmpty.string_of_uint d))
  = Some (Z.of_N (Pos.of_uint d)).
Proof.
  intros Hd. rewrite <- int_tail_uint_0.
  destruct d; try contradiction; reflexivity.
Qed.

Lemma str_nonneg_text (z : Z) :
  0 <= z -> exists d, d <> Decimal.Nil /\ str z = lit (NilEmpty.string_of_uint d)
                      /\ Z.of_N (Pos.of_uint d) = z.
Proof.
  intros Hz. destruct z as [|p|p]; [| |lia].
  - exists (Decimal.D0 Decimal.Nil). repeat split. discriminate.
  - exists (Pos.to_uint p). split; [apply Unsigned.to_uint_nonnil|]. split.
    + unfold str. simpl. unfold NilZero.string_of_uint.
      destruct (Pos.to_uint p) eqn:E; try reflexivity.
      exfalso. exact (Unsigned.to_uint_nonnil p E).
    + rewrite Unsigned.of_to. reflexivity.
Qed.

Lemma str_neg_text (z : Z) : z < 0 -> str z = 45%N :: str (- z).
Proof. intros Hz. destruct z as [|p|p]; try lia. reflexivity. Qed.

Lemma lstrip_digits (d : Decimal.uint) :
  Builtins.lstrip (lit (NilEmpty.string_of_uint d)) = lit (NilEmpty.string_of_uint d).
Proof. destruct d; reflexivity. Qed.

Lemma int_uint_text (d : Decimal.uint) :
  d <> Decimal.Nil ->
  Builtins.int (lit (NilEmpty.string_of_uint d)) = Some (Z.of_N (Pos.of_uint d)).
Proof.
  intros Hd. unfold Builtins.int. rewrite lstrip_digits.
  rewrite <- (int_unsigned_uint d Hd).
  destruct d; try contradiction; reflexivity.
Qed.

Lemma int_str (z : Z) : Builtins.int (str z) = Some z.
Proof.
  destruct (Z.lt_ge_cases z 0) as [Hz|Hz].
  - rewrite (str_neg_text z Hz).
    destruct (str_nonneg_text (- z)) as (d & Hd & -> & Hv); [lia|].
    unfold Builtins.int. cbn [Builtins.lstrip].
    change (Builtins.is_space 45) with false. cbn iota.
    change (45 =? 45)%N with true. cbn iota.
    rewrite (int_unsigned_uint d Hd), Hv. simpl. f_equal. lia.
  - destruct (str_nonneg_text z Hz) as (d & Hd & -> & Hv).
    rewrite (int_uint_text d Hd), Hv. reflexivity.
Qed.

Lemma str_inj (a b : Z) : str a = str b -> a = b.
Proof.
  intros H. assert (K : Builtins.int (str a) = Builtins.int (str b)) by (rewrite H; reflexivity).
  rewrite !int_str in K. congruence.
Qed.

(** ** Rows, keys and the selected process *)

(** X3: the pid column of a row reads back as the pid of its record:
    [int(str(pid))] is [pid], so the first cell of every row
    [refresh_processes] adds parses, without [ValueError], to the pid of
    the record it was made from. *)
Theorem row_pid_reads_back (w : os) (q : unicode) (s : app) (l : list process) :
  scan (process_iter w) = Ok l ->
  (forall z, Builtins.int (str z) = Some z) /\
  (forall r, In r (table (state_after (refresh_processes w q) s)) ->
     exists p, In p (shown q l) /\ r = render p /\
               Builtins.int (row_pid r) = Some (pid p) /\
               Builtins.int (row_key r) = Some (pid p) /\ pid p > 0).
Proof.
  intros H. split; [exact int_str|].
  intros r Hr. unfold state_after in Hr.
  rewrite refresh_processes_run, H in Hr. simpl in Hr.
  apply in_map_iff in Hr. destruct Hr as (p & <- & Hp).
  exists p. split; [exact Hp|]. split; [reflexivity|].
  split; [apply int_str|]. split; [apply int_str|].
  apply shown_In in Hp. destruct (scan_ok _ _ H) as [-> _].
  destruct (kept_In _ _ Hp) as (info & _ & Hpid & ->). exact Hpid.
Qed.

Lemma NoDup_map_filter {A B} (f : A -> B) (g : A -> bool) (l : list A) :
  NoDup (map f l) -> NoDup (map f (filter g l)).
Proof.
  induction l as [|a l IH]; simpl; intros H; [constructor|].
  inversion H as [|? ? Hn Hl]; subst. destruct (g a); [|apply IH, Hl].
  simpl. constructor; [|apply IH, Hl].
  intros Hin. apply Hn. apply in_map_iff in Hin. destruct Hin as (x & Hx & Hf).
  apply filter_In in Hf. apply in_map_iff. exists x. split; [exact Hx | apply Hf].
Qed.

Lemma NoDup_map_firstn {A B} (f : A -> B) (n : nat) (l : list A) :
  NoDup (map f l) -> NoDup (map f (firstn n l)).
Proof.
  revert n. induction l as [|a l IH]; intros [|n] H; simpl; try constructor.
  - inversion H as [|? ? Hn Hl]; subst. intros Hin. apply Hn.
    apply in_map_iff in Hin. destruct Hin as (x & Hx & Hf).
    apply in_map_iff. exists x. split; [exact Hx | eapply firstn_In; exact Hf].
  - inversion H; subst. apply IH. assumption.
Qed.

Lemma shown_NoDup_pid (q : unicode) (l : list process) :
  NoDup (map pid l) -> NoDup (map pid (shown q l)).
Proof.
  intros H. unfold shown. apply NoDup_map_firstn.
  assert (Hs : NoDup (map pid (sort_reverse cpu l))).
  { eapply Permutation_NoDup; [apply Permutation_map, sort_reverse_perm | exact H]. }
  unfold select. destruct (truthy q); [apply NoDup_map_filter|]; exact Hs.
Qed.

Lemma NoDup_map_str (l : list Z) : NoDup l -> NoDup (map str l).
Proof.
  induction 1 as [|a l Hn Hl IH]; simpl; constructor; [|exact IH].
  intros Hin. apply Hn. apply in_map_iff in Hin. destruct Hin as (b & Hb & Hin).
  apply str_inj in Hb. subst b. exact Hin.
Qed.

(** X4: when the enumerated processes have distinct pids, the rows of the
    table have distinct keys (and distinct pid cells): no two rows can be
    confused when one is looked up by key. *)
Theorem row_keys_distinct (w : os) (q : unicode) (s : app) (l : list process) :
  scan (process_iter w) = Ok l ->
  NoDup (map pid l) ->
  NoDup (map row_key (table (state_after (refresh_processes w q) s))) /\
  NoDup (map row_pid (table (state_after (refresh_processes w q) s))).
Proof.
  intros H Hnd. unfold state_after. rewrite refresh_processes_run, H. simpl.
  assert (K : NoDup (map str (map pid (shown q l)))).
  { apply NoDup_map_str, shown_NoDup_pid, Hnd. }
  rewrite !map_map in *. split; exact K.
Qed.

Lemma kill_process_events (w : os) (p : Z) (s : app) :
  exists evs,
    trace (state_after (kill_process w p) s) = trace s ++ EvSignal p :: evs /\
    forall p', ~ In (EvSignal p') evs.
Proof.
  unfold state_after. rewrite kill_process_run.
  destruct (os_kill w p) as [[]|e]; cbv zeta.
  - destruct (scan (process_iter w)) as [l|e]; simpl; eexists; (split; [reflexivity|]);
      intros p' H; simpl in H; intuition discriminate.
  - simpl. eexists. split; [reflexivity|].
    intros p' H; simpl in H; intuition discriminate.
Qed.

Lemma show_message_keeps (text : unicode) (error : bool) (s : app) :
  let s' := state_after (show_message text error) s in
  trace s' = trace s ++ [EvMessage text error] /\
  table s' = table s /\ search_input s' = search_input s.
Proof. repeat split. Qed.

(** X5: with the cursor on a row of the table [refresh_processes] built,
    [action_kill_selected] is [kill_process] for the pid of the record shown
    in that row: the signal goes to that process and to no other. *)
Theorem kill_selected_kills_row_under_cursor
        (w0 w : os) (q : unicode) (s : app) (l : list process)
        (c : cursor) (i : nat) (p : process) :
  scan (process_iter w0) = Ok l ->
  cursor_row c = Some i ->
  nth_error (shown q l) i = Some p ->
  let s1 := state_after (refresh_processes w0 q) s in
  action_kill_selected w c s1 = kill_process w (pid p) s1 /\
  exists evs,
    trace (state_after (action_kill_selected w c) s1)
    = trace s1 ++ EvSignal (pid p) :: evs /\
    forall p', ~ In (EvSignal p') evs.
Proof.
  intros H Hc Hi s1.
  assert (E : action_kill_selected w c s1 = kill_process w (pid p) s1).
  { unfold action_kill_selected. rewrite Hc.
    assert (Hr : nth_error (table s1) i = Some (render p)).
    { subst s1. unfold state_after. rewrite refresh_processes_run, H. simpl.
      rewrite nth_error_map, Hi. reflexivity. }
    rewrite Hr. cbn [row_pid render]. rewrite int_str. reflexivity. }
  split; [exact E|].
  unfold state_after at 1. rewrite E. apply kill_process_events.
Qed.

(** X6: [action_kill_selected] sends at most one signal, and only to the
    pid written in the first cell of the row under the cursor: with no
    cursor row, no row at that index, or a first cell that is not a number,
    it sends none, and it does not touch the table or the search input
    then. *)
Theorem kill_selected_signals_only_selected (w : os) (c : cursor) (s : app) :
  let s' := state_after (action_kill_selected w c) s in
  (forall p, In (EvSignal p) (skipn (List.length (trace s)) (trace s')) ->
     exists i r, cursor_row c = Some i /\ nth_error (table s) i = Some r /\
                 Builtins.int (row_pid r) = Some p) /\
  ((forall i r, cursor_row c = Some i -> nth_error (table s) i = Some r ->
                Builtins.int (row_pid r) = None) ->
   table s' = table s /\ search_input s' = search_input s).
Proof.
  intros s'. subst s'. unfold action_kill_selected, state_after.
  assert (Hmsg : forall text p,
             ~ In (EvSignal p)
                  (skipn (List.length (trace s))
                         (trace (snd (show_message text true s))))).
  { intros text p Hp. simpl in Hp.
    rewrite skipn_app, skipn_all, Nat.sub_diag in Hp. simpl in Hp.
    destruct Hp as [Hp|[]]; discriminate. }
  destruct (cursor_row c) as [i|].
  - destruct (nth_error (table s) i) as [r|] eqn:Er.
    + destruct (Builtins.int (row_pid r)) as [p0|] eqn:Ep.
      * split.
        -- intros p Hp. destruct (kill_process_events w p0 s) as (evs & Ht & Hn).
           unfold state_after in Ht. rewrite Ht in Hp.
           rewrite skipn_app, skipn_all, Nat.sub_diag in Hp. simpl in Hp.
           destruct Hp as [Hp|Hp]; [|destruct (Hn _ Hp)].
           injection Hp as <-. exists i, r. auto.
        -- intros Hno. specialize (Hno i r eq_refl Er). congruence.
      * split; [intros p Hp; destruct (Hmsg _ _ Hp) | intros _; split; reflexivity].
    + destruct (no_such_row c) as [e|].
      * split; [|intros _; split; reflexivity].
        intros p Hp. simpl in Hp. rewrite skipn_all in Hp. destruct Hp.
      * split; [intros p Hp; destruct (Hmsg _ _ Hp) | intros _; split; reflexivity].
  - split; [intros p Hp; destruct (Hmsg _ _ Hp) | intros _; split; reflexivity].
Qed.

(** ** Refreshing again, and other queries *)

(** X7: [refresh_processes] rebuilds the table from the enumeration alone:
    the rows it leaves do not depend on the rows, the message or the trace
    it found, so refreshing twice on the same enumeration shows what
    refreshing once shows; it never changes the search input or the
    message. *)
Theorem refresh_rebuilds_table (w : os) (q : unicode) (s1 s2 : app) :
  table (state_after (refresh_processes w q) s1)
  = table (state_after (refresh_processes w q) s2) /\
  result_of (refresh_processes w q) s1 = result_of (refresh_processes w q) s2 /\
  (forall q0,
     table (state_after (refresh_processes w q)
                        (state_after (refresh_processes w q0) s1))
     = table (state_after (refresh_processes w q) s1)) /\
  search_input (state_after (refresh_processes w q) s1) = search_input s1 /\
  message (state_after (refresh_processes w q) s1) = message s1.
Proof.
  unfold state_after, result_of.
  split; [|split; [|split; [|split]]]; try intros q0;
    rewrite !refresh_processes_run;
    destruct (scan (process_iter w)); reflexivity.
Qed.

Lemma shown_all_when_few (q : unicode) (l : list process) :
  (List.length (select q l) <= 30)%nat -> shown q l = select q (sort_reverse cpu l).
Proof.
  intros Hlen. unfold shown. apply firstn_all2.
  rewrite <- (Permutation_length (select_perm q _ _ (sort_reverse_perm cpu l))).
  exact Hlen.
Qed.

(** ** ASCII queries *)

Lemma lower_ascii_below_letters (s s' : unicode) :
  Forall (fun c => (c < 65)%N) s -> lower_ascii s' = lower_ascii s -> s' = s.
Proof.
  intros Hs. revert s'. induction Hs as [|c s Hc Hs IH]; intros [|c' s'] H;
    simpl in H; try discriminate; [reflexivity|].
  injection H as Hc' Hr. f_equal; [|apply IH, Hr].
  replace ((65 <=? c)%N) with false in Hc' by (symmetry; apply N.leb_gt; exact Hc).
  cbn [andb] in Hc'.
  destruct ((65 <=? c')%N) eqn:E1; [|exact Hc'].
  destruct ((c' <=? 90)%N) eqn:E2; [|exact Hc'].
  cbn [andb] in Hc'. apply N.leb_le in E1. lia.
Qed.

Lemma lit_uint_below_letters (d : Decimal.uint) :
  Forall (fun c => (c < 65)%N) (lit (NilEmpty.string_of_uint d)).
Proof.
  induction d; cbn [NilEmpty.string_of_uint lit]; constructor;
    solve [reflexivity | assumption].
Qed.

Lemma str_below_letters (z : Z) : Forall (fun c => (c < 65)%N) (str z).
Proof.
  destruct (Z.lt_ge_cases z 0) as [Hz|Hz].
  - rewrite (str_neg_text z Hz).
    destruct (str_nonneg_text (- z)) as (d & _ & -> & _); [lia|].
    constructor; [reflexivity | apply lit_uint_below_letters].
  - destruct (str_nonneg_text z Hz) as (d & _ & -> & _).
    apply lit_uint_below_letters.
Qed.

Lemma occurs_str_caseless (z : Z) (q q' : unicode) :
  occurs q (str z) -> lower_ascii q' = lower_ascii q -> q' = q.
Proof.
  intros (pre & post & Hs) Hl. apply lower_ascii_below_letters; [|exact Hl].
  pose proof (str_below_letters z) as K. rewrite Hs in K.
  apply Forall_app in K. destruct K as [_ K].
  apply Forall_app in K. apply K.
Qed.

Lemma lower_ascii_truthy (q q' : unicode) :
  lower_ascii q' = lower_ascii q -> truthy q' = truthy q.
Proof. destruct q, q'; simpl; intros H; try discriminate; reflexivity. Qed.

Section AsciiQueries.

(** On ASCII text [str.lower] lowers the 26 capitals and nothing else. *)
Hypothesis lower_on_ascii : forall s, ascii_text s -> lower s = lower_ascii s.

Lemma matches_caseless (q q' : unicode) (p : process) :
  ascii_text q -> ascii_text q' -> lower_ascii q' = lower_ascii q ->
  matches q' p = matches q p.
Proof.
  intros Hq Hq' Hl. unfold matches.
  rewrite (lower_on_ascii q Hq), (lower_on_ascii q' Hq'), Hl. f_equal.
  destruct (contains q (str (pid p))) eqn:E.
  - apply contains_iff in E. rewrite (occurs_str_caseless _ _ _ E Hl).
    apply contains_iff. exact E.
  - destruct (contains q' (str (pid p))) eqn:E'; [|reflexivity].
    apply contains_iff in E'.
    rewrite (occurs_str_caseless _ _ _ E' (eq_sym Hl)) in E.
    apply contains_iff in E'. congruence.
Qed.

(** X9: the case of the ASCII letters of an ASCII query does not matter,
    whatever the names of the processes: given that [str.lower] lowers
    ASCII text as [lower_ascii] does, two ASCII queries that are equal once
    their capitals are lowered select the same records and give the same
    table. *)
Theorem query_case_is_ignored (w : os) (q q' : unicode) (s : app) :
  ascii_text q -> ascii_text q' ->
  lower_ascii q' = lower_ascii q ->
  (forall l, shown q' l = shown q l) /\
  table (state_after (refresh_processes w q') s)
  = table (state_after (refresh_processes w q) s).
Proof.
  intros Hq Hq' Hl.
  assert (Hs : forall l, shown q' l = shown q l).
  { intros l. unfold shown, select. rewrite (lower_ascii_truthy _ _ Hl).
    destruct (truthy q); [|reflexivity]. f_equal.
    apply filter_ext. intros p. apply matches_caseless; assumption. }
  split; [exact Hs|].
  unfold state_after. rewrite !refresh_processes_run.
  destruct (scan (process_iter w)) as [l|e]; simpl; [rewrite Hs|]; reflexivity.
Qed.

End AsciiQueries.

(** ** Messages and failures of the handlers *)

(** X10: what the label says after [kill_process] when [os.kill] succeeded.
    When the refresh that follows succeeds the label reads Refreshed: the
    Killed message is replaced at once.  When that refresh raises, the
    handler of [kill_process] catches it: the label reports the refresh's
    exception as if the kill had failed (not found, when the enumeration
    raises [ProcessLookupError]), the table is empty, and the signal has
    been sent. *)
Theorem kill_success_label (w : os) (p : Z) (s : app) :
  os_kill w p = Ok tt ->
  let s' := state_after (kill_process w p) s in
  In (EvSignal p) (trace s') /\
  In (EvMessage (lit "Killed process " ++ str p) false) (trace s') /\
  (forall l, scan (process_iter w) = Ok l ->
     message s' = (lit "[green]" ++ arrow ++ lit " Refreshed[/]") /\
     table s' = map render (shown (search_input s) l)) /\
  (forall e, scan (process_iter w) = Raise e ->
     message s' = ((lit "[red]" ++ arrow ++ lit " ") ++ caught_text p e ++ lit "[/]") /\
     table s' = [] /\
     (e = ProcessLookupError ->
      message s' = ((lit "[red]" ++ arrow ++ lit " Process ") ++ str p ++ lit " not found[/]"))).
Proof.
  intros Hk s'. subst s'. unfold state_after. rewrite kill_process_run, Hk. cbv zeta.
  destruct (scan (process_iter w)) as [l|e]; simpl.
  - split; [apply in_or_app; right; left; reflexivity|].
    split; [apply in_or_app; right; right; left; reflexivity|].
    split; [intros l' [= <-]; split; reflexivity | intros e' [=]].
  - split; [apply in_or_app; right; left; reflexivity|].
    split; [apply in_or_app; right; right; left; reflexivity|].
    split; [intros l' [=]|]. intros e' [= <-].
    split; [reflexivity|]. split; [reflexivity|]. intros ->.
    cbn [caught_text]. simpl. rewrite <- ?app_assoc. reflexivity.
Qed.

(** X11: when the enumeration raises, every handler that refreshes raises
    the same exception, shows no message (the label keeps its text) and
    leaves the table empty; [action_clear_search] has by then emptied the
    search input, the others leave it as it was. *)
Theorem handlers_fail_with_enumeration (w : os) (s : app) (e : exn) :
  scan (process_iter w) = Raise e ->
  action_search w s = (Raise e, refreshed s (search_input s) []) /\
  action_refresh w s = (Raise e, refreshed s (search_input s) []) /\
  timer_tick w s = (Raise e, refreshed s [] []) /\
  action_clear_search w s
  = (Raise e, {| search_input := []; table := [];
                 message := message s;
                 trace := trace s ++ [EvRefresh []] |}).
Proof.
  intros H. repeat split.
  - unfold action_search, bind, get_search_input.
    rewrite refresh_processes_run, H. reflexivity.
  - rewrite action_refresh_run, H. reflexivity.
  - unfold timer_tick. rewrite refresh_processes_run, H. reflexivity.
  - unfold action_clear_search, bind, set_search_input.
    rewrite refresh_processes_run, H. reflexivity.
Qed.

(** X12: with an empty search input the timer and the Refresh action show
    the same table; in particular they agree after [action_clear_search],
    whatever was searched before. *)
Theorem timer_agrees_without_query (w : os) (s : app) :
  (search_input s = [] ->
   table (state_after (timer_tick w) s) = table (state_after (action_refresh w) s)) /\
  (forall w0,
     table (state_after (timer_tick w) (state_after (action_clear_search w0) s))
     = table (state_after (action_refresh w) (state_after (action_clear_search w0) s))) /\
  table (state_after (timer_tick w) s) = table (state_after (action_clear_search w) s).
Proof.
  unfold state_after, timer_tick.
  assert (Hc : forall w0, search_input (snd (action_clear_search w0 s)) = []).
  { intros w0. unfold action_clear_search, bind, set_search_input.
    rewrite refresh_processes_run.
    destruct (scan (process_iter w0)); reflexivity. }
  assert (Hr : forall s0, search_input s0 = [] ->
             table (snd (refresh_processes w [] s0))
             = table (snd (action_refresh w s0))).
  { intros s0 H0. rewrite action_refresh_run, refresh_processes_run, H0.
    destruct (scan (process_iter w)); reflexivity. }
  split; [apply Hr|]. split; [intros w0; apply Hr, Hc|].
  unfold action_clear_search, bind, set_search_input.
  rewrite !refresh_processes_run. destruct (scan (process_iter w)); reflexivity.
Qed.

(** ** Rounding and [format_bytes] *)

Lemma round_half_even_near_Z (x : Q) :
  let t := Builtins.round_half_even x in
  - Zpos (Qden x) <= 2 * (Qnum x - t * Zpos (Qden x)) <= Zpos (Qden x).
Proof.
  unfold Builtins.round_half_even.
  pose proof (Z.div_mod (Qnum x) (Zpos (Qden x)) ltac:(discriminate)) as Hdm.
  pose proof (Z.mod_pos_bound (Qnum x) (Zpos (Qden x)) ltac:(reflexivity)) as Hb.
  set (D := Zpos (Qden x)) in *. set (f := Qnum x / D) in *.
  set (r := Qnum x mod D) in *. cbv zeta.
  destruct (2 * r <? D) eqn:E1; [apply Z.ltb_lt in E1; lia|].
  apply Z.ltb_ge in E1.
  destruct (D <? 2 * r) eqn:E2; [apply Z.ltb_lt in E2; lia|].
  apply Z.ltb_ge in E2. destruct (Z.even f); lia.
Qed.

Lemma round_half_even_unique (x : Q) (t : Z) :
  - Zpos (Qden x) < 2 * (Qnum x - t * Zpos (Qden x)) < Zpos (Qden x) ->
  Builtins.round_half_even x = t.
Proof.
  intros H. pose proof (round_half_even_near_Z x) as K. cbv zeta in K.
  set (t0 := Builtins.round_half_even x) in *.
  assert (Hd : 0 < Zpos (Qden x)) by reflexivity.
  nia.
Qed.

Lemma round_half_even_nonneg (x : Q) : (0 <= x)%Q -> 0 <= Builtins.round_half_even x.
Proof.
  intros Hx. pose proof (round_half_even_near_Z x) as K. cbv zeta in K.
  assert (Hn : 0 <= Qnum x).
  { unfold Qle in Hx. simpl in Hx. lia. }
  assert (Hd : 0 < Zpos (Qden x)) by reflexivity.
  nia.
Qed.

Lemma round_half_even_near (x : Q) :
  (Qabs (x - inject_Z (Builtins.round_half_even x)) <= 1 # 2)%Q.
Proof.
  pose proof (round_half_even_near_Z x) as K. cbv zeta in K.
  apply Qabs_Qle_condition. destruct x as [n d].
  set (t := Builtins.round_half_even (n # d)) in *. cbn [Qnum Qden] in K.
  unfold Qle, Qminus, Qplus, Qopp, inject_Z. cbn [Qnum Qden].
  rewrite ?Pos2Z.inj_mul, ?Pos.mul_1_r. split; lia.
Qed.

Lemma lt_inject_Z (a b : Z) : lt (inject_Z a) (inject_Z b) = (a <? b).
Proof.
  destruct (a <? b) eqn:E.
  - apply lt_iff. rewrite <- Zlt_Qlt. apply Z.ltb_lt, E.
  - apply lt_false_iff. rewrite <- Zle_Qle. apply Z.ltb_ge, E.
Qed.

Lemma div_1024_lt (a b : Q) : (a < b * 1024 -> a / 1024 < b)%Q.
Proof. intros H. apply Qlt_shift_div_r; [reflexivity | exact H]. Qed.

Lemma div_1024_le (a b : Q) : (b * 1024 <= a -> b <= a / 1024)%Q.
Proof. intros H. apply Qle_shift_div_l; [reflexivity | exact H]. Qed.

Lemma format_bytes_from_lt (unit : unicode) (units : list unicode) (x : Q) :
  (x < 1024)%Q ->
  format_bytes_from (unit :: units) x
  = (Builtins.format_1f x ++ lit " " ++ unit).
Proof. intros H. cbn [format_bytes_from]. rewrite (proj2 (lt_iff x 1024) H). reflexivity. Qed.

Lemma format_bytes_from_ge (unit : unicode) (units : list unicode) (x : Q) :
  (1024 <= x)%Q ->
  format_bytes_from (unit :: units) x = format_bytes_from units (x / 1024).
Proof.
  intros H. cbn [format_bytes_from]. rewrite (proj2 (lt_false_iff x 1024) H). reflexivity.
Qed.

Lemma format_bytes_ranges (n : Z) :
  let x := inject_Z n in
  (n < 1024 -> format_bytes n = (Builtins.format_1f x ++ (lit " B"))) /\
  (1024 <= n < 1024 ^ 2 ->
   format_bytes n = (Builtins.format_1f (x / 1024) ++ (lit " KB"))) /\
  (1024 ^ 2 <= n < 1024 ^ 3 ->
   format_bytes n = (Builtins.format_1f (x / 1024 / 1024) ++ (lit " MB"))) /\
  (1024 ^ 3 <= n < 1024 ^ 4 ->
   format_bytes n = (Builtins.format_1f (x / 1024 / 1024 / 1024) ++ (lit " GB"))) /\
  (1024 ^ 4 <= n < 1024 ^ 5 ->
   format_bytes n
   = (Builtins.format_1f (x / 1024 / 1024 / 1024 / 1024) ++ (lit " TB"))) /\
  (1024 ^ 5 <= n ->
   format_bytes n
   = (Builtins.format_1f (x / 1024 / 1024 / 1024 / 1024 / 1024) ++ (lit " PB"))).
Proof.
  intros x. unfold format_bytes. cbn [map]. fold x.
  assert (Hlt : forall b : Z, n < b -> (x < inject_Z b)%Q)
    by (intros b Hb; unfold x; rewrite <- Zlt_Qlt; exact Hb).
  assert (Hle : forall b : Z, b <= n -> (inject_Z b <= x)%Q)
    by (intros b Hb; unfold x; rewrite <- Zle_Qle; exact Hb).
  repeat split.
  - intros H. apply Hlt in H. apply format_bytes_from_lt. exact H.
  - intros [H1 H2]. apply Hle in H1. apply Hlt in H2.
    change (inject_Z 1024) with 1024%Q in H1.
    change (inject_Z (1024 ^ 2)) with 1048576%Q in H2.
    rewrite format_bytes_from_ge by exact H1.
    apply format_bytes_from_lt. apply div_1024_lt. lra.
  - intros [H1 H2]. apply Hle in H1. apply Hlt in H2.
    change (inject_Z (1024 ^ 2)) with 1048576%Q in H1.
    change (inject_Z (1024 ^ 3)) with 1073741824%Q in H2.
    rewrite format_bytes_from_ge by lra.
    rewrite format_bytes_from_ge by (apply div_1024_le; lra).
    apply format_bytes_from_lt. do 2 apply div_1024_lt. lra.
  - intros [H1 H2]. apply Hle in H1. apply Hlt in H2.
    change (inject_Z (1024 ^ 3)) with 1073741824%Q in H1.
    change (inject_Z (1024 ^ 4)) with 1099511627776%Q in H2.
    rewrite format_bytes_from_ge by lra.
    rewrite format_bytes_from_ge by (apply div_1024_le; lra).
    rewrite format_bytes_from_ge by (do 2 apply div_1024_le; lra).
    apply format_bytes_from_lt. do 3 apply div_1024_lt. lra.
  - intros [H1 H2]. apply Hle in H1. apply Hlt in H2.
    change (inject_Z (1024 ^ 4)) with 1099511627776%Q in H1.
    change (inject_Z (1024 ^ 5)) with 1125899906842624%Q in H2.
    rewrite format_bytes_from_ge by lra.
    rewrite format_bytes_from_ge by (apply div_1024_le; lra).
    rewrite format_bytes_from_ge by (do 2 apply div_1024_le; lra).
    rewrite format_bytes_from_ge by (do 3 apply div_1024_le; lra).
    apply format_bytes_from_lt. do 4 apply div_1024_lt. lra.
  - intros H1. apply Hle in H1.
    change (inject_Z (1024 ^ 5)) with 1125899906842624%Q in H1.
    rewrite format_bytes_from_ge by lra.
    rewrite format_bytes_from_ge by (apply div_1024_le; lra).
    rewrite format_bytes_from_ge by (do 2 apply div_1024_le; lra).
    rewrite format_bytes_from_ge by (do 3 apply div_1024_le; lra).
    rewrite format_bytes_from_ge by (do 4 apply div_1024_le; lra).
    reflexivity.
Qed.

Lemma format_1f_of_tenths (x : Q) (t : Z) :
  (0 <= x)%Q ->
  - Zpos (Qden (Qabs x * 10)) < (Qnum (Qabs x * 10) - t * Zpos (Qden (Qabs x * 10))) * 2
    < Zpos (Qden (Qabs x * 10)) ->
  Builtins.format_1f x = (str (t / 10) ++ lit "." ++ str (t mod 10)).
Proof.
  intros Hx Ht. unfold Builtins.format_1f.
  rewrite (round_half_even_unique _ t) by lia.
  rewrite (proj2 (lt_false_iff x 0) Hx). reflexivity.
Qed.

Lemma shows_1024 (n : Z) :
  (20479 * 1024 <= 20 * n /\ n < 1024 ^ 2 ->
   Builtins.format_1f (inject_Z n / 1024) = lit "1024.0") /\
  (20479 * 1024 ^ 2 <= 20 * n /\ n < 1024 ^ 3 ->
   Builtins.format_1f (inject_Z n / 1024 / 1024) = lit "1024.0") /\
  (20479 * 1024 ^ 3 <= 20 * n /\ n < 1024 ^ 4 ->
   Builtins.format_1f (inject_Z n / 1024 / 1024 / 1024) = lit "1024.0") /\
  (20479 * 1024 ^ 4 <= 20 * n /\ n < 1024 ^ 5 ->
   Builtins.format_1f (inject_Z n / 1024 / 1024 / 1024 / 1024) = lit "1024.0").
Proof.
  repeat split; intros [H1 H2];
    (rewrite (format_1f_of_tenths _ 10240); [reflexivity | |]);
    [ unfold Qle; cbn; lia | cbn; lia
    | unfold Qle; cbn; lia | cbn; lia
    | unfold Qle; cbn; lia | cbn; lia
    | unfold Qle; cbn; lia | cbn; lia ].
Qed.

Lemma format_1f_shape (x : Q) :
  exists a b : Z,
    0 <= a /\ 0 <= b <= 9 /\
    Builtins.format_1f x
    = ((if lt x 0 then lit "-" else []) ++ str a ++ lit "." ++ str b) /\
    (Qabs (Qabs x - (inject_Z a + inject_Z b / 10)) <= 1 # 20)%Q.
Proof.
  set (t := Builtins.round_half_even (Qabs x * 10)).
  assert (Ht : 0 <= t).
  { apply round_half_even_nonneg. pose proof (Qabs_nonneg x). lra. }
  exists (t / 10), (t mod 10).
  split; [apply Z.div_pos; lia|].
  split; [pose proof (Z.mod_pos_bound t 10); lia|].
  split; [reflexivity|].
  pose proof (round_half_even_near (Qabs x * 10)) as K. fold t in K.
  apply Qabs_Qle_condition in K. apply Qabs_Qle_condition.
  assert (E : (inject_Z t == 10 * inject_Z (t / 10) + inject_Z (t mod 10))%Q).
  { rewrite (Z.div_mod t 10) at 1 by discriminate.
    rewrite inject_Z_plus, inject_Z_mult. reflexivity. }
  unfold Qdiv. change (/ 10)%Q with (1 # 10)%Q. lra.
Qed.

(** X13: for byte counts below 2^53 in magnitude (where the float
    division is exact), [format_bytes] picks the unit by powers of 1024:
    below 1024 the count is shown in B, from 1024^k up to but excluding 1024^(k+1) it is
    divided k times by 1024 and shown in KB, MB, GB or TB, and from 1024^5
    on it is shown in PB, however large. *)
Theorem format_bytes_units (n : Z) :
  - 2 ^ 53 < n < 2 ^ 53 ->
  let x := inject_Z n in
  (n < 1024 -> format_bytes n = (Builtins.format_1f x ++ lit " B")) /\
  (1024 <= n < 1024 ^ 2 ->
   format_bytes n = (Builtins.format_1f (x / 1024) ++ lit " KB")) /\
  (1024 ^ 2 <= n < 1024 ^ 3 ->
   format_bytes n = (Builtins.format_1f (x / 1024 / 1024) ++ lit " MB")) /\
  (1024 ^ 3 <= n < 1024 ^ 4 ->
   format_bytes n = (Builtins.format_1f (x / 1024 / 1024 / 1024) ++ lit " GB")) /\
  (1024 ^ 4 <= n < 1024 ^ 5 ->
   format_bytes n
   = (Builtins.format_1f (x / 1024 / 1024 / 1024 / 1024) ++ lit " TB")) /\
  (1024 ^ 5 <= n ->
   format_bytes n
   = (Builtins.format_1f (x / 1024 / 1024 / 1024 / 1024 / 1024) ++ lit " PB")).
Proof. intros _. apply format_bytes_ranges. Qed.

Lemma format_1f_nonneg (x : Q) :
  (0 <= x)%Q ->
  exists a b : Z,
    0 <= a /\ 0 <= b <= 9 /\
    Builtins.format_1f x = (str a ++ lit "." ++ str b) /\
    (Qabs (x - (inject_Z a + inject_Z b / 10)) <= 1 # 20)%Q.
Proof.
  intros Hx. destruct (format_1f_shape x) as (a & b & Ha & Hb & Hf & Hq).
  exists a, b. split; [exact Ha|]. split; [exact Hb|]. split.
  - rewrite Hf, (proj2 (lt_false_iff x 0) Hx). reflexivity.
  - rewrite (Qabs_pos x Hx) in Hq. exact Hq.
Qed.

(** X14: for a byte count from 0 to below 2^53, [format_bytes] shows a
    number with one decimal followed by one of the six units, and that
    number is within 0.05 of the count divided by 1024 to the power of the
    unit's rank (B 0, KB 1, ... PB 5). *)
Theorem format_bytes_nearest_tenth (n : Z) :
  0 <= n < 2 ^ 53 ->
  exists (k : nat) (a b : Z),
    (k <= 5)%nat /\ 0 <= a /\ 0 <= b <= 9 /\
    format_bytes n
    = ((str a ++ lit "." ++ str b) ++ lit " "
       ++ nth k [lit "B"; lit "KB"; lit "MB"; lit "GB"; lit "TB"; lit "PB"] []) /\
    (Qabs (inject_Z n / inject_Z (1024 ^ Z.of_nat k)
           - (inject_Z a + inject_Z b / 10)) <= 1 # 20)%Q.
Proof.
  intros [H0 _]. pose proof (format_bytes_ranges n) as R. cbv zeta in R.
  destruct R as (R0 & R1 & R2 & R3 & R4 & R5).
  assert (Hx : (0 <= inject_Z n)%Q)
    by (change 0%Q with (inject_Z 0); rewrite <- Zle_Qle; exact H0).
  assert (Hd : forall y : Q, (0 <= y -> 0 <= y / 1024)%Q).
  { intros y Hy. apply Qle_shift_div_l; [reflexivity | lra]. }
  assert (C : n < 1024 \/ 1024 <= n < 1024 ^ 2 \/ 1024 ^ 2 <= n < 1024 ^ 3 \/
              1024 ^ 3 <= n < 1024 ^ 4 \/ 1024 ^ 4 <= n < 1024 ^ 5 \/ 1024 ^ 5 <= n)
    by lia.
  destruct C as [C|[C|[C|[C|[C|C]]]]].
  - destruct (format_1f_nonneg (inject_Z n) Hx) as (a & b & Ha & Hb & Hf & Hq).
    exists 0%nat, a, b. repeat split; try lia.
    + rewrite (R0 C), Hf. reflexivity.
    + apply Qabs_Qle_condition in Hq. apply Qabs_Qle_condition.
      revert Hq. unfold Qdiv. cbn [Z.of_nat Z.pow inject_Z Qinv Qnum Qden].
      change (/ 10)%Q with (1 # 10)%Q. intros Hq. lra.
  - destruct (format_1f_nonneg (inject_Z n / 1024)) as (a & b & Ha & Hb & Hf & Hq);
      [auto|].
    exists 1%nat, a, b. repeat split; try lia.
    + rewrite (R1 C), Hf. reflexivity.
    + apply Qabs_Qle_condition in Hq. apply Qabs_Qle_condition.
      revert Hq. unfold Qdiv.
      change (/ inject_Z (1024 ^ Z.of_nat 1))%Q with (1 # 1024)%Q.
      change (/ 1024)%Q with (1 # 1024)%Q. change (/ 10)%Q with (1 # 10)%Q.
      intros Hq. lra.
  - destruct (format_1f_nonneg (inject_Z n / 1024 / 1024))
      as (a & b & Ha & Hb & Hf & Hq); [auto|].
    exists 2%nat, a, b. repeat split; try lia.
    + rewrite (R2 C), Hf. reflexivity.
    + apply Qabs_Qle_condition in Hq. apply Qabs_Qle_condition.
      revert Hq. unfold Qdiv.
      change (/ inject_Z (1024 ^ Z.of_nat 2))%Q with (1 # 1048576)%Q.
      change (/ 1024)%Q with (1 # 1024)%Q. change (/ 10)%Q with (1 # 10)%Q.
      intros Hq. lra.
  - destruct (format_1f_nonneg (inject_Z n / 1024 / 1024 / 1024))
      as (a & b & Ha & Hb & Hf & Hq); [auto|].
    exists 3%nat, a, b. repeat split; try lia.
    + rewrite (R3 C), Hf. reflexivity.
    + apply Qabs_Qle_condition in Hq. apply Qabs_Qle_condition.
      revert Hq. unfold Qdiv.
      change (/ inject_Z (1024 ^ Z.of_nat 3))%Q with (1 # 1073741824)%Q.
      change (/ 1024)%Q with (1 # 1024)%Q. change (/ 10)%Q with (1 # 10)%Q.
      intros Hq. lra.
  - destruct (format_1f_nonneg (inject_Z n / 1024 / 1024 / 1024 / 1024))
      as (a & b & Ha & Hb & Hf & Hq); [auto|].
    exists 4%nat, a, b. repeat split; try lia.
    + rewrite (R4 C), Hf. reflexivity.
    + apply Qabs_Qle_condition in Hq. apply Qabs_Qle_condition.
      revert Hq. unfold Qdiv.
      change (/ inject_Z (1024 ^ Z.of_nat 4))%Q with (1 # 1099511627776)%Q.
      change (/ 1024)%Q with (1 # 1024)%Q. change (/ 10)%Q with (1 # 10)%Q.
      intros Hq. lra.
  - destruct (format_1f_nonneg (inject_Z n / 1024 / 1024 / 1024 / 1024 / 1024))
      as (a & b & Ha & Hb & Hf & Hq); [auto 6|].
    exists 5%nat, a, b. repeat split; try lia.
    + rewrite (R5 C), Hf. reflexivity.
    + apply Qabs_Qle_condition in Hq. apply Qabs_Qle_condition.
      revert Hq. unfold Qdiv.
      change (/ inject_Z (1024 ^ Z.of_nat 5))%Q with (1 # 1125899906842624)%Q.
      change (/ 1024)%Q with (1 # 1024)%Q. change (/ 10)%Q with (1 # 10)%Q.
      intros Hq. lra.
Qed.

(** X15: the number [format_bytes] shows can be 1024.0: a count within
    0.05 units below the next power of 1024 stays in the smaller unit and
    rounds up, so that 1023.95 KB or more, short of 1 MB, reads 1024.0 KB,
    and likewise for MB, GB and TB. *)
Theorem format_bytes_shows_1024 (n : Z) :
  (20479 * 1024 <= 20 * n /\ n < 1024 ^ 2 ->
   format_bytes n = lit "1024.0 KB") /\
  (20479 * 1024 ^ 2 <= 20 * n /\ n < 1024 ^ 3 ->
   format_bytes n = lit "1024.0 MB") /\
  (20479 * 1024 ^ 3 <= 20 * n /\ n < 1024 ^ 4 ->
   format_bytes n = lit "1024.0 GB") /\
  (20479 * 1024 ^ 4 <= 20 * n /\ n < 1024 ^ 5 ->
   format_bytes n = lit "1024.0 TB").
Proof.
  pose proof (format_bytes_ranges n) as R. cbv zeta in R.
  destruct R as (_ & R1 & R2 & R3 & R4 & _).
  destruct (shows_1024 n) as (S1 & S2 & S3 & S4).
  repeat split; intros H.
  - rewrite R1, (S1 H) by lia. reflexivity.
  - rewrite R2, (S2 H) by lia. reflexivity.
  - rewrite R3, (S3 H) by lia. reflexivity.
  - rewrite R4, (S4 H) by lia. reflexivity.
Qed.

End Program.

(** * Instances on sample data

    The statements above at concrete enumerations, with the ASCII lowering
    (the sample names and queries are ASCII). *)

Lemma refresh_at_most_30_witness :
  scan (process_iter crowd_os) = Ok (kept crowd) /\
  (List.length (kept crowd) = 40)%nat /\
  (List.length (table (state_after (refresh_processes lower_ascii crowd_os (lit "1")) empty_app)) = 13)%nat /\
  (List.length (table (state_after (refresh_processes lower_ascii crowd_os []) empty_app)) = 30)%nat /\
  table (state_after (refresh_processes lower_ascii crowd_os (lit "1")) empty_app)
  = map render (firstn 30 (select lower_ascii (lit "1") (sort_reverse cpu (kept crowd)))).
Proof.
  split; [reflexivity|]. split; [reflexivity|].
  split; [vm_compute; reflexivity|]. split; [vm_compute; reflexivity|].
  apply (proj2 (refresh_at_most_30 lower_ascii crowd_os (lit "1") empty_app)). reflexivity.
Defined.

Lemma refresh_descending_stable_witness :
  scan (process_iter sample_os)
  = Ok (map record_of [bash_info; chrome_info; bare_info; long_info]) /\
  map pid (shown lower_ascii [] (map record_of [bash_info; chrome_info; bare_info; long_info]))
  = [50; 10; 20; 30] /\
  table (state_after (refresh_processes lower_ascii sample_os []) empty_app)
  = map render (map record_of [long_info; chrome_info; bash_info; bare_info]) /\
  scan (process_iter crowd_os) = Ok (kept crowd) /\
  map pid (shown lower_ascii [] (kept crowd))
  = [6; 13; 20; 27; 34; 5; 12; 19; 26; 33; 40; 4; 11; 18; 25; 32; 39;
     3; 10; 17; 24; 31; 38; 2; 9; 16; 23; 30; 37; 1] /\
  initial_segment (with_key cpu 1 (shown lower_ascii [] (kept crowd)))
                  (with_key cpu 1 (select lower_ascii [] (kept crowd))).
Proof.
  split; [reflexivity|]. split; [reflexivity|].
  destruct (refresh_descending_stable lower_ascii sample_os [] empty_app
              (map record_of [bash_info; chrome_info; bare_info; long_info])
              eq_refl) as (_ & H & _).
  split; [exact H|]. split; [reflexivity|]. split; [vm_compute; reflexivity|].
  destruct (refresh_descending_stable lower_ascii crowd_os [] empty_app
              (kept crowd) eq_refl) as (_ & _ & _ & K & _).
  exact (K 1%Q).
Defined.

Lemma refresh_filters_by_query_witness :
  scan (process_iter sample_os)
  = Ok (map record_of [bash_info; chrome_info; bare_info; long_info]) /\
  table (state_after (refresh_processes lower_ascii sample_os (lit "CHROME")) empty_app)
  = [render (record_of chrome_info)] /\
  table (state_after (refresh_processes lower_ascii sample_os (lit "0")) empty_app)
  = map render (map record_of [long_info; chrome_info; bash_info; bare_info]) /\
  refresh_processes lower_ascii sample_os (lit "999999") empty_app
  = (Ok tt, refreshed empty_app (lit "999999") []).
Proof.
  split; [reflexivity|].
  pose proof (refresh_filters_by_query lower_ascii sample_os (lit "CHROME") empty_app _ eq_refl) as (H1 & _).
  pose proof (refresh_filters_by_query lower_ascii sample_os (lit "0") empty_app _ eq_refl) as (H2 & _).
  pose proof (refresh_filters_by_query lower_ascii sample_os (lit "999999") empty_app _ eq_refl)
    as (_ & _ & _ & _ & H3).
  split; [exact H1|]. split; [exact H2|]. apply H3.
  intros p Hp Hm. apply matches_iff in Hm.
  simpl in Hp. destruct Hp as [<-|[<-|[<-|[<-|[]]]]]; vm_compute in Hm; discriminate.
Defined.

Lemma refresh_skips_failed_reads_witness :
  reads_tolerated (yielded (process_iter sample_os)) /\
  iter_error (process_iter sample_os) = None /\
  refresh_processes lower_ascii sample_os [] empty_app
  = (Ok tt, refreshed empty_app []
              (map render (map record_of [long_info; chrome_info; bash_info; bare_info]))) /\
  refresh_processes lower_ascii (os_of [Ok bash_info; Raise NoSuchProcess; Ok chrome_info] None)
                    [] empty_app
  = (Ok tt, refreshed empty_app []
              (map render (map record_of [chrome_info; bash_info]))).
Proof.
  assert (Hr : reads_tolerated (yielded (process_iter sample_os))).
  { intros e He. simpl in He.
    repeat (destruct He as [He|He]; [try discriminate He; injection He as <-; reflexivity|]).
    destruct He. }
  split; [exact Hr|]. split; [reflexivity|]. split.
  - destruct (refresh_skips_failed_reads lower_ascii sample_os [] empty_app)
      as (_ & _ & H & _).
    exact (H Hr eq_refl).
  - destruct (refresh_skips_failed_reads lower_ascii sample_os [] empty_app)
      as (_ & _ & _ & H).
    apply (H bash_info chrome_info NoSuchProcess _ only_pid_10).
    + left. reflexivity.
    + reflexivity.
    + reflexivity.
    + right. left. reflexivity.
Defined.

(** C5 (as stated, refuted): the enumeration of [failing_os] raises, and the
    row [busy_app] displayed is gone after the failed refresh. *)
Lemma failed_refresh_loses_rows :
  iter_error (process_iter failing_os) = Some (OtherException (lit "enumeration failed")) /\
  result_of (refresh_processes lower_ascii failing_os (lit "chrome")) busy_app
  = Raise (OtherException (lit "enumeration failed")) /\
  table busy_app = [render (record_of chrome_info)] /\
  table (state_after (refresh_processes lower_ascii failing_os (lit "chrome")) busy_app) = [] /\
  table (state_after (refresh_processes lower_ascii failing_os (lit "chrome")) busy_app) <> table busy_app.
Proof.
  repeat split; try reflexivity. vm_compute. discriminate.
Qed.

Lemma failed_refresh_clears_table_witness :
  iter_error (process_iter failing_os) = Some (OtherException (lit "enumeration failed")) /\
  exists e',
    refresh_processes lower_ascii failing_os (lit "chrome") busy_app
    = (Raise e', refreshed busy_app (lit "chrome") []) /\
    table (state_after (refresh_processes lower_ascii failing_os (lit "chrome")) busy_app) = [] /\
    (reads_tolerated (yielded (process_iter failing_os)) ->
     e' = OtherException (lit "enumeration failed")).
Proof.
  split; [reflexivity|].
  apply (failed_refresh_clears_table lower_ascii failing_os (lit "chrome") busy_app). reflexivity.
Defined.

Lemma kill_process_classifies_witness :
  os_kill sample_os 10 = Ok tt /\
  os_kill sample_os 1 = Raise PermissionError /\
  os_kill sample_os 2 = Raise (OtherException (lit "Invalid argument")) /\
  os_kill sample_os 77 = Raise ProcessLookupError /\
  state_after (kill_process lower_ascii sample_os 77) busy_app
  = kill_reported busy_app 77 (lit "Process 77 not found") /\
  state_after (kill_process lower_ascii sample_os 1) busy_app
  = kill_reported busy_app 1 (lit "Permission denied for PID 1") /\
  state_after (kill_process lower_ascii sample_os 2) busy_app
  = kill_reported busy_app 2 (lit "Error: Invalid argument") /\
  exists last,
    trace (state_after (kill_process lower_ascii sample_os 10) busy_app)
    = trace busy_app ++ [EvSignal 10; EvMessage (lit "Killed process 10") false;
                         EvRefresh (lit "chrome"); last] /\
    (forall q, last <> EvRefresh q) /\
    table (state_after (kill_process lower_ascii sample_os 10) busy_app)
    = table (state_after (refresh_processes lower_ascii sample_os (lit "chrome")) busy_app).
Proof.
  do 4 (split; [reflexivity|]).
  pose proof (kill_process_classifies lower_ascii sample_os 77 busy_app) as (_ & H77 & _).
  pose proof (kill_process_classifies lower_ascii sample_os 1 busy_app) as (_ & _ & H1 & _).
  pose proof (kill_process_classifies lower_ascii sample_os 2 busy_app) as (_ & _ & _ & H2 & _).
  pose proof (kill_process_classifies lower_ascii sample_os 10 busy_app) as (_ & _ & _ & _ & H10 & _).
  split; [exact (H77 eq_refl)|]. split; [exact (H1 eq_refl)|].
  split; [apply (H2 _ eq_refl); discriminate|].
  exact (H10 eq_refl).
Defined.

(** C7 (the code departs from the claim): the timer runs
    [refresh_processes] with the default empty query whatever was searched
    last.  After a search for [chrome] the table shows the one matching
    row, [action_refresh] keeps it, and the next timer tick shows every
    process again. *)
Theorem timer_tick_forgets_query :
  (forall lower w s, on_mount lower w s = refresh_processes lower w [] s) /\
  (forall lower w s, timer_tick lower w s = refresh_processes lower w [] s) /\
  let s1 := state_after (action_search lower_ascii sample_os) busy_app in
  search_input s1 = lit "chrome" /\
  table s1 = [render (record_of chrome_info)] /\
  table (state_after (action_refresh lower_ascii sample_os) s1) = [render (record_of chrome_info)] /\
  table (state_after (timer_tick lower_ascii sample_os) s1)
  = map render (map record_of [long_info; chrome_info; bash_info; bare_info]) /\
  last (trace (state_after (timer_tick lower_ascii sample_os) s1)) (EvSignal 0)
  = EvRefresh [].
Proof.
  split; [reflexivity|]. split; [reflexivity|]. vm_compute. repeat split.
Qed.

(** C9 (as stated, refuted): a process reported with the CPU percentage -1
    is shown with that percentage. *)
Lemma negative_percentage_is_shown :
  scan (process_iter skewed_os) = Ok (map record_of [bash_info; skewed_info]) /\
  In (record_of skewed_info)
     (shown lower_ascii [] (map record_of [bash_info; skewed_info])) /\
  table (state_after (refresh_processes lower_ascii skewed_os []) empty_app)
  = map render (map record_of [bash_info; skewed_info]) /\
  (cpu (record_of skewed_info) < 0)%Q /\
  ~ (0 <= cpu (record_of skewed_info))%Q.
Proof.
  split; [reflexivity|]. split; [vm_compute; auto|]. split; [reflexivity|].
  split; [reflexivity|]. vm_compute. intros H. apply H. reflexivity.
Qed.

Lemma shown_records_wellformed_witness :
  scan (process_iter sample_os)
  = Ok (map record_of [bash_info; chrome_info; bare_info; long_info]) /\
  In (record_of bare_info)
     (shown lower_ascii [] (map record_of [bash_info; chrome_info; bare_info; long_info])) /\
  (forall info, In (Ok info) (yielded (process_iter sample_os)) ->
     percentages_nonneg info) /\
  record_of bare_info
  = {| pid := 30; name := lit "Unknown"; cpu := 0; memory := 0; status := lit "unknown" |} /\
  (pid (record_of bare_info) > 0 /\
   name (record_of bare_info) <> [] /\
   status (record_of bare_info) <> [] /\
   (0 <= cpu (record_of bare_info))%Q /\ (0 <= memory (record_of bare_info))%Q).
Proof.
  assert (Hin : In (record_of bare_info)
     (shown lower_ascii [] (map record_of [bash_info; chrome_info; bare_info; long_info])))
    by (vm_compute; auto).
  assert (Hnn : forall info, In (Ok info) (yielded (process_iter sample_os)) ->
                             percentages_nonneg info).
  { intros info Hi. simpl in Hi.
    repeat (destruct Hi as [Hi|Hi];
            [try discriminate Hi; injection Hi as <-;
             split; intros c Hc;
             (discriminate Hc || (injection Hc as <-; discriminate))|]).
    destruct Hi. }
  split; [reflexivity|]. split; [exact Hin|]. split; [exact Hnn|].
  split; [reflexivity|].
  destruct (shown_records_wellformed lower_ascii sample_os [] empty_app _ eq_refl)
    as [_ H].
  destruct (H _ Hin) as (H1 & H2 & H3 & _ & H4).
  destruct (H4 Hnn) as [H5 H6].
  repeat split; assumption.
Defined.

Lemma rows_styled_and_truncated_witness :
  scan (process_iter sample_os)
  = Ok (map record_of [bash_info; chrome_info; bare_info; long_info]) /\
  table (state_after (refresh_processes lower_ascii sample_os (lit "helper")) empty_app)
  = [render (record_of long_info)] /\
  name (record_of long_info) = lit "com.example.application.service.helper" /\
  row_name (render (record_of long_info)) = lit "com.example.application.servic" /\
  contains (lit "helper") (row_name (render (record_of long_info))) = false /\
  cell_style (row_cpu (render (record_of long_info))) = lit "red" /\
  cpu_color (cpu (record_of long_info)) = lit "yellow" /\
  name (record_of accented_info) = repeat 233%N 31 /\
  map row_name (table (state_after (refresh_processes lower_ascii accented_os [])
                                   empty_app))
  = [repeat 233%N 30] /\
  (cpu_style (record_of chrome_info) = lit "yellow" /\
   cpu_color (cpu (record_of chrome_info)) = lit "green") /\
  (mem_style (record_of chrome_info) = lit "yellow" /\
   memory_color (memory (record_of chrome_info)) = lit "green") /\
  exists p, In p (shown lower_ascii (lit "helper") (map record_of [bash_info; chrome_info; bare_info; long_info])) /\
    render (record_of long_info) = render p /\
    (cell_style (row_cpu (render p)) = (lit "red") <-> (50 < cpu p)%Q) /\
    row_name (render p) = take 30 (name p) /\
    (occurs_caseless lower_ascii (lit "helper") (name p) \/ occurs (lit "helper") (str (pid p))).
Proof.
  do 9 (split; [reflexivity|]).
  destruct (rows_styled_and_truncated lower_ascii sample_os (lit "helper") empty_app _ eq_refl)
    as (H & Hcpu & Hmem).
  split; [apply Hcpu; split; reflexivity|].
  split; [apply Hmem; split; [reflexivity | discriminate]|].
  destruct (H (render (record_of long_info)) (or_introl eq_refl))
    as (p & Hp & Hr & (Hred & _) & _ & (Hn & _) & Hq).
  exists p. rewrite <- Hr.
  split; [exact Hp|]. split; [reflexivity|]. split; [exact Hred|].
  split; [exact Hn|]. apply Hq. discriminate.
Defined.

Lemma refresh_shows_every_match_witness :
  scan (process_iter sample_os)
  = Ok (map record_of [bash_info; chrome_info; bare_info; long_info]) /\
  (List.length (select lower_ascii (lit "o") (map record_of [bash_info; chrome_info; bare_info; long_info]))
   <= 30)%nat /\
  Permutation (select lower_ascii (lit "o") (map record_of [bash_info; chrome_info; bare_info; long_info]))
              (map record_of [long_info; chrome_info; bare_info]).
Proof.
  split; [reflexivity|]. split; [vm_compute; lia|].
  apply (refresh_shows_every_match lower_ascii sample_os (lit "o") empty_app _ eq_refl).
  vm_compute. lia.
Defined.

Lemma refresh_keeps_highest_cpu_witness :
  scan (process_iter crowd_os) = Ok (kept crowd) /\
  In (record_of (info_of 1 "worker" 1 1 "running")) (shown lower_ascii [] (kept crowd)) /\
  In (record_of (info_of 7 "worker" 0 1 "running")) (select lower_ascii [] (kept crowd)) /\
  ~ In (record_of (info_of 7 "worker" 0 1 "running")) (shown lower_ascii [] (kept crowd)) /\
  (cpu (record_of (info_of 7 "worker" 0 1 "running"))
   <= cpu (record_of (info_of 1 "worker" 1 1 "running")))%Q.
Proof.
  assert (H1 : In (record_of (info_of 1 "worker" 1 1 "running"))
                  (shown lower_ascii [] (kept crowd)))
    by (vm_compute; repeat (try (left; reflexivity); right)).
  assert (H2 : In (record_of (info_of 7 "worker" 0 1 "running"))
                  (select lower_ascii [] (kept crowd)))
    by (vm_compute; repeat (try (left; reflexivity); right)).
  assert (H3 : ~ In (record_of (info_of 7 "worker" 0 1 "running"))
                    (shown lower_ascii [] (kept crowd))).
  { vm_compute. intros H. repeat (destruct H as [H|H]; [discriminate H|]). exact H. }
  split; [reflexivity|]. split; [exact H1|]. split; [exact H2|]. split; [exact H3|].
  exact (refresh_keeps_highest_cpu lower_ascii crowd_os [] _ _ _ eq_refl H1 H2 H3).
Defined.

Lemma row_pid_reads_back_witness :
  scan (process_iter sample_os)
  = Ok (map record_of [bash_info; chrome_info; bare_info; long_info]) /\
  exists p, In p (shown lower_ascii (lit "chrome") (map record_of [bash_info; chrome_info; bare_info; long_info])) /\
    render (record_of chrome_info) = render p /\
    Builtins.int (row_pid (render (record_of chrome_info))) = Some (pid p) /\
    Builtins.int (row_key (render (record_of chrome_info))) = Some (pid p) /\ pid p > 0.
Proof.
  split; [reflexivity|].
  destruct (row_pid_reads_back lower_ascii sample_os (lit "chrome") empty_app _ eq_refl) as [_ H].
  exact (H (render (record_of chrome_info)) (or_introl eq_refl)).
Defined.

Lemma row_keys_distinct_witness :
  scan (process_iter sample_os)
  = Ok (map record_of [bash_info; chrome_info; bare_info; long_info]) /\
  NoDup (map pid (map record_of [bash_info; chrome_info; bare_info; long_info])) /\
  NoDup (map row_key (table (state_after (refresh_processes lower_ascii sample_os (lit "o")) empty_app))).
Proof.
  assert (Hnd : NoDup (map pid (map record_of [bash_info; chrome_info; bare_info; long_info]))).
  { simpl. repeat constructor; simpl; intuition discriminate. }
  split; [reflexivity|]. split; [exact Hnd|].
  apply (row_keys_distinct lower_ascii sample_os (lit "o") empty_app _ eq_refl Hnd).
Defined.

Lemma kill_selected_kills_row_under_cursor_witness :
  scan (process_iter sample_os)
  = Ok (map record_of [bash_info; chrome_info; bare_info; long_info]) /\
  nth_error (shown lower_ascii [] (map record_of [bash_info; chrome_info; bare_info; long_info])) 1
  = Some (record_of chrome_info) /\
  action_kill_selected lower_ascii sample_os {| cursor_row := Some 1%nat; no_such_row := None |}
    (state_after (refresh_processes lower_ascii sample_os []) empty_app)
  = kill_process lower_ascii sample_os 10
      (state_after (refresh_processes lower_ascii sample_os []) empty_app).
Proof.
  split; [reflexivity|]. split; [reflexivity|].
  apply (kill_selected_kills_row_under_cursor lower_ascii sample_os sample_os [] empty_app
           _ {| cursor_row := Some 1%nat; no_such_row := None |} 1
           (record_of chrome_info) eq_refl eq_refl eq_refl).
Defined.

Lemma kill_selected_signals_only_selected_witness :
  let c := {| cursor_row := Some 5%nat; no_such_row := None |} in
  (forall i r, cursor_row c = Some i -> nth_error (table busy_app) i = Some r ->
               Builtins.int (row_pid r) = None) /\
  table (state_after (action_kill_selected lower_ascii sample_os c) busy_app) = table busy_app /\
  search_input (state_after (action_kill_selected lower_ascii sample_os c) busy_app)
  = search_input busy_app /\
  message (state_after (action_kill_selected lower_ascii sample_os c) busy_app)
  = (lit "[red]" ++ arrow ++ lit " No process selected[/]").
Proof.
  intros c.
  assert (H : forall i r, cursor_row c = Some i ->
                nth_error (table busy_app) i = Some r ->
                Builtins.int (row_pid r) = None).
  { intros i r Hi Hr. injection Hi as <-. discriminate Hr. }
  split; [exact H|].
  destruct (kill_selected_signals_only_selected lower_ascii sample_os c busy_app) as [_ K].
  destruct (K H) as [K1 K2]. split; [exact K1|]. split; [exact K2|]. reflexivity.
Defined.

Lemma query_case_is_ignored_witness :
  (forall s, ascii_text s -> lower_ascii s = lower_ascii s) /\
  ascii_text (lit "Chrome") /\ ascii_text (lit "CHROME") /\
  lower_ascii (lit "CHROME") = lower_ascii (lit "Chrome") /\
  table (state_after (refresh_processes lower_ascii sample_os (lit "CHROME")) empty_app)
  = table (state_after (refresh_processes lower_ascii sample_os (lit "Chrome")) empty_app) /\
  table (state_after (refresh_processes lower_ascii sample_os (lit "Chrome")) empty_app)
  = [render (record_of chrome_info)].
Proof.
  assert (H1 : ascii_text (lit "Chrome")) by (repeat constructor).
  assert (H2 : ascii_text (lit "CHROME")) by (repeat constructor).
  split; [reflexivity|]. split; [exact H1|]. split; [exact H2|].
  split; [reflexivity|]. split; [|reflexivity].
  apply (query_case_is_ignored lower_ascii (fun s _ => eq_refl)
           sample_os (lit "Chrome") (lit "CHROME") empty_app H1 H2).
  reflexivity.
Defined.

Lemma kill_success_label_witness :
  os_kill sample_os 10 = Ok tt /\
  os_kill failing_os 10 = Ok tt /\
  message (state_after (kill_process lower_ascii sample_os 10) busy_app)
  = (lit "[green]" ++ arrow ++ lit " Refreshed[/]") /\
  message (state_after (kill_process lower_ascii failing_os 10) busy_app)
  = (lit "[red]" ++ arrow ++ lit " Error: enumeration failed[/]") /\
  table (state_after (kill_process lower_ascii failing_os 10) busy_app) = [].
Proof.
  split; [reflexivity|]. split; [reflexivity|].
  destruct (kill_success_label lower_ascii sample_os 10 busy_app eq_refl) as (_ & _ & H1 & _).
  destruct (kill_success_label lower_ascii failing_os 10 busy_app eq_refl) as (_ & _ & _ & H2).
  destruct (H1 _ eq_refl) as [M1 _].
  destruct (H2 _ eq_refl) as (M2 & T2 & _).
  split; [exact M1|]. split; [exact M2 | exact T2].
Defined.

Lemma handlers_fail_with_enumeration_witness :
  scan (process_iter failing_os) = Raise (OtherException (lit "enumeration failed")) /\
  action_search lower_ascii failing_os busy_app
  = (Raise (OtherException (lit "enumeration failed")), refreshed busy_app (lit "chrome") []) /\
  search_input (state_after (action_clear_search lower_ascii failing_os) busy_app) = [].
Proof.
  split; [reflexivity|].
  destruct (handlers_fail_with_enumeration lower_ascii failing_os busy_app _ eq_refl)
    as (H1 & _ & _ & H4).
  split; [exact H1|]. unfold state_after. rewrite H4. reflexivity.
Defined.

Lemma timer_agrees_without_query_witness :
  search_input empty_app = [] /\
  table (state_after (timer_tick lower_ascii sample_os) empty_app)
  = table (state_after (action_refresh lower_ascii sample_os) empty_app).
Proof.
  split; [reflexivity|].
  apply (proj1 (timer_agrees_without_query lower_ascii sample_os empty_app)). reflexivity.
Defined.

Lemma format_bytes_units_witness :
  - 2 ^ 53 < 17716740096 < 2 ^ 53 /\
  1024 ^ 3 <= 17716740096 < 1024 ^ 4 /\
  format_bytes 17716740096
  = (Builtins.format_1f (inject_Z 17716740096 / 1024 / 1024 / 1024) ++ lit " GB") /\
  format_bytes 17716740096 = lit "16.5 GB".
Proof.
  assert (H1 : - 2 ^ 53 < 17716740096 < 2 ^ 53) by (split; reflexivity).
  assert (H2 : 1024 ^ 3 <= 17716740096 < 1024 ^ 4) by (split; [discriminate | reflexivity]).
  split; [exact H1|]. split; [exact H2|]. split; [|reflexivity].
  destruct (format_bytes_units 17716740096 H1) as (_ & _ & _ & H & _).
  exact (H H2).
Defined.

Lemma format_bytes_nearest_tenth_witness :
  0 <= 1536 < 2 ^ 53 /\
  format_bytes 1536 = lit "1.5 KB" /\
  exists (k : nat) (a b : Z),
    (k <= 5)%nat /\ 0 <= a /\ 0 <= b <= 9 /\
    format_bytes 1536
    = ((str a ++ lit "." ++ str b) ++ lit " "
       ++ nth k [lit "B"; lit "KB"; lit "MB"; lit "GB"; lit "TB"; lit "PB"] []) /\
    (Qabs (inject_Z 1536 / inject_Z (1024 ^ Z.of_nat k)
           - (inject_Z a + inject_Z b / 10)) <= 1 # 20)%Q.
Proof.
  assert (H : 0 <= 1536 < 2 ^ 53) by (split; [discriminate | reflexivity]).
  split; [exact H|]. split; [reflexivity|].
  exact (format_bytes_nearest_tenth 1536 H).
Defined.

Lemma format_bytes_shows_1024_witness :
  (20479 * 1024 <= 20 * 1048575 /\ 1048575 < 1024 ^ 2) /\
  format_bytes 1048575 = lit "1024.0 KB" /\
  format_bytes 1048576 = lit "1.0 MB".
Proof.
  assert (H : 20479 * 1024 <= 20 * 1048575 /\ 1048575 < 1024 ^ 2)
    by (split; [discriminate | reflexivity]).
  split; [exact H|]. split; [|reflexivity].
  exact (proj1 (format_bytes_shows_1024 1048575) H).
Defined.

